(** * postgresql_set: the parameter reconciliation logic of
      [plugins/modules/postgresql_set.py], embedded in Rocq.

    The module reads one server parameter, decides whether it has to be
    changed, issues [ALTER SYSTEM] (and a reload) and re-reads the
    parameter.  The embedding follows the Python text function by
    function: [param_get], [pretty_to_bytes], [param_set] and [main].

    Conventions of the embedding.
    - A Python [str] is a [string]; its characters are read as the code
      points U+0000 .. U+00FF.
    - The interpreter is CPython 3 with its default settings (in
      particular the default limit of 4300 digits on [int(str)]).
    - A Python [float] is an IEEE 754 binary64 number ([spec_float] with
      precision 53 and maximal exponent 1024).
    - The database server, the connection helpers of [module_utils] and
      the input check are collaborators outside this file of the
      repository: they are the fields of the class [Engine]. *)

From Stdlib Require Import ZArith NArith List String Ascii Bool Lia.
From Stdlib Require Import Floats.SpecFloat.
Import ListNotations.

Local Open Scope string_scope.
Local Open Scope list_scope.
Local Open Scope Z_scope.

(** ** Python values *)

Module Py.

(** The values the module stores and passes around: [None], a [str]
    or an [int]. *)
Inductive Val : Type :=
| PNone
| PStr (s : string)
| PInt (z : Z).

(** What [pretty_to_bytes] returns: one of the above or a [float]. *)
Inductive Obj : Type :=
| OVal (v : Val)
| OFloat (f : spec_float).

(** Exceptions: the built-in ones the modelled code can raise, and the
    database driver's error with its text. *)
Inductive Exn : Type :=
| ValueError
| TypeError
| KeyError
| DbError (msg : string).

(** A computation that either returns or raises. *)
Inductive Exc (A : Type) : Type :=
| Ok (a : A)
| Raised (e : Exn).

Arguments Ok {A} a.
Arguments Raised {A} e.

Definition prec64 : Z := 53.
Definition emax64 : Z := 1024.

(** *** Character classes ([str.isdigit], [str.isalpha], white space) *)

Definition ord (c : ascii) : N := N_of_ascii c.

Definition in_range (lo hi : N) (c : ascii) : bool :=
  ((lo <=? ord c) && (ord c <=? hi))%N.

(** ['0'..'9']: the characters [int] and [float] accept as digits. *)
Definition is_decimal (c : ascii) : bool := in_range 48 57 c.

(** [c.isdigit()]: the decimal digits and the superscripts 2, 3, 1
    (U+00B2, U+00B3, U+00B9). *)
Definition isdigit_char (c : ascii) : bool :=
  is_decimal c || (ord c =? 178)%N || (ord c =? 179)%N || (ord c =? 185)%N.

(** [c.isalpha()]: the letters (categories Lu, Ll, Lo) below U+0100. *)
Definition isalpha_char (c : ascii) : bool :=
  in_range 65 90 c || in_range 97 122 c
  || (ord c =? 170)%N || (ord c =? 181)%N || (ord c =? 186)%N
  || in_range 192 214 c || in_range 216 246 c || in_range 248 255 c.

(** White space stripped by [int(str)] and [float(str)]. *)
Definition is_space (c : ascii) : bool :=
  in_range 9 13 c || (ord c =? 32)%N || (ord c =? 133)%N || (ord c =? 160)%N.

(** [s.isdigit()]: every character is a digit and there is at least one. *)
Definition isdigit (s : string) : bool :=
  match s with
  | EmptyString => false
  | _ => forallb isdigit_char (list_ascii_of_string s)
  end.

(** [s.isdecimal()]: every character is one of ['0'..'9'] and there is
    at least one. *)
Definition isdecimal (s : string) : bool :=
  match s with
  | EmptyString => false
  | _ => forallb is_decimal (list_ascii_of_string s)
  end.

(** *** Slices and membership *)

Definition first_char (s : string) : option ascii :=
  match s with
  | EmptyString => None
  | String c _ => Some c
  end.

Definition last_char (s : string) : option ascii :=
  List.last (map Some (list_ascii_of_string s)) None.

(** [s[-n:]] *)
Definition slice_last (n : nat) (s : string) : string :=
  let l := list_ascii_of_string s in
  string_of_list_ascii (skipn (List.length l - n) l).

(** [s[:-n]] *)
Definition slice_but_last (n : nat) (s : string) : string :=
  let l := list_ascii_of_string s in
  string_of_list_ascii (firstn (List.length l - n) l).

(** [sub in s] for strings. *)
Fixpoint str_in (sub s : string) : bool :=
  prefix sub s ||
  match s with
  | EmptyString => false
  | String _ s' => str_in sub s'
  end.

(** [x in t] for a tuple of strings. *)
Definition in_tuple (x : string) (t : list string) : bool :=
  existsb (String.eqb x) t.

Definition upper_char (c : ascii) : ascii :=
  if in_range 97 122 c then ascii_of_N (ord c - 32) else c.

(** [s.upper()].  The module calls it on strings made of digit
    characters and the letters b, g, m, t only; on those characters
    this is exactly Python's [upper]. *)
Definition upper (s : string) : string :=
  string_of_list_ascii (map upper_char (list_ascii_of_string s)).

Definition lower_char (c : ascii) : ascii :=
  if in_range 65 90 c then ascii_of_N (ord c + 32) else c.

(** ASCII lower-casing, enough to decide [s.lower() == 'default']. *)
Definition lower (s : string) : string :=
  string_of_list_ascii (map lower_char (list_ascii_of_string s)).

(** *** [int(str)] *)

Definition digit_value (c : ascii) : Z := Z.of_N (ord c) - 48.

Definition Z_of_digits (ds : list ascii) : Z :=
  fold_left (fun acc c => 10 * acc + digit_value c) ds 0.

Fixpoint drop_space (l : list ascii) : list ascii :=
  match l with
  | c :: l' => if is_space c then drop_space l' else l
  | [] => []
  end.

Definition strip (l : list ascii) : list ascii :=
  rev (drop_space (rev (drop_space l))).

Definition is_underscore (c : ascii) : bool := (ord c =? 95)%N.

(** Reads [("_"? digit)*] after a first digit; returns the digits read
    and what is left. *)
Fixpoint scan_digits (l : list ascii) : list ascii * list ascii :=
  match l with
  | [] => ([], [])
  | c :: l' =>
      if is_decimal c then
        let (ds, r) := scan_digits l' in (c :: ds, r)
      else if is_underscore c then
        match l' with
        | c' :: l'' =>
            if is_decimal c' then
              let (ds, r) := scan_digits l'' in (c' :: ds, r)
            else ([], l)
        | [] => ([], l)
        end
      else ([], l)
  end.

(** [digit ("_"? digit)*], the whole of [l]. *)
Definition digitpart (l : list ascii) : option (list ascii) :=
  match l with
  | c :: l' =>
      if is_decimal c then
        match scan_digits l' with
        | (ds, []) => Some (c :: ds)
        | _ => None
        end
      else None
  | [] => None
  end.

Definition is_plus (c : ascii) : bool := (ord c =? 43)%N.
Definition is_minus (c : ascii) : bool := (ord c =? 45)%N.

(** An optional sign: [true] for minus. *)
Definition read_sign (l : list ascii) : bool * list ascii :=
  match l with
  | c :: l' =>
      if is_minus c then (true, l')
      else if is_plus c then (false, l')
      else (false, l)
  | [] => (false, l)
  end.

(** CPython's default [sys.get_int_max_str_digits()]. *)
Definition int_max_str_digits : nat := 4300.

(** [int(s)] for a string [s], base 10. *)
Definition int_of_string (s : string) : Exc Z :=
  let (neg, body) := read_sign (strip (list_ascii_of_string s)) in
  match digitpart body with
  | Some ds =>
      if (int_max_str_digits <? List.length ds)%nat then Raised ValueError
      else Ok (if neg then - Z_of_digits ds else Z_of_digits ds)
  | None => Raised ValueError
  end.

(** *** [float(str)] *)

(** Underscores may only stand between two digits; they are removed
    before the number is read. *)
Fixpoint remove_underscores (prev : option ascii) (l : list ascii)
  : option (list ascii) :=
  let prev_is (f : ascii -> bool) :=
    match prev with Some p => f p | None => false end in
  match l with
  | [] => if prev_is is_underscore then None else Some []
  | c :: l' =>
      if is_underscore c then
        if prev_is is_decimal then remove_underscores (Some c) l' else None
      else if prev_is is_underscore && negb (is_decimal c) then None
      else option_map (cons c) (remove_underscores (Some c) l')
  end.

Fixpoint span_decimal (l : list ascii) : list ascii * list ascii :=
  match l with
  | c :: l' =>
      if is_decimal c then let (ds, r) := span_decimal l' in (c :: ds, r)
      else ([], l)
  | [] => ([], [])
  end.

Definition is_dot (c : ascii) : bool := (ord c =? 46)%N.
Definition is_e (c : ascii) : bool := (ord c =? 101)%N || (ord c =? 69)%N.

(** The exponent part, if a well-formed one follows: its value and the
    rest.  An ["e"] without digits is not consumed. *)
Definition read_exponent (l : list ascii) : Z * list ascii :=
  match l with
  | c :: l' =>
      if is_e c then
        let (neg, l'') := read_sign l' in
        match span_decimal l'' with
        | ([], _) => (0, l)
        | (ds, r) => ((if neg then - Z_of_digits ds else Z_of_digits ds), r)
        end
      else (0, l)
  | [] => (0, l)
  end.

(** A decimal literal [digits [. digits] [exponent]] with at least one
    digit: the digits of the mantissa, the power of ten, and the rest. *)
Definition read_decimal (l : list ascii) : option (list ascii * Z * list ascii) :=
  let (ip, r1) := span_decimal l in
  let (fp, r2) :=
    match r1 with
    | c :: r1' => if is_dot c then span_decimal r1' else ([], r1)
    | [] => ([], r1)
    end in
  match (ip ++ fp)%list with
  | [] => None
  | ds =>
      let (e, r3) := read_exponent r2 in
      Some (ds, e - Z.of_nat (List.length fp), r3)
  end.

Fixpoint drop_zeros (l : list ascii) : list ascii :=
  match l with
  | c :: l' => if (ord c =? 48)%N then drop_zeros l' else l
  | [] => []
  end.

(** The binary64 number nearest to [m * 10^e] (ties to even), for a
    mantissa given by its decimal digits; overflow gives an infinity. *)
Definition float_of_decimal (neg : bool) (ds : list ascii) (e : Z) : spec_float :=
  let m := Z_of_digits ds in
  let nd := Z.of_nat (List.length (drop_zeros ds)) in
  if m =? 0 then S754_zero neg
  else if 400 <? nd - 1 + e then S754_infinity neg
  else if nd + e <? -400 then S754_zero neg
  else if 0 <=? e then
    binary_normalize prec64 emax64 (cond_Zopp neg (m * 10 ^ e)) 0 neg
  else
    SFdiv prec64 emax64
      (S754_finite neg (Z.to_pos m) 0)
      (S754_finite false (Z.to_pos (10 ^ (- e))) 0).

Definition special_float (neg : bool) (l : list ascii) : option spec_float :=
  let w := lower (string_of_list_ascii l) in
  if (w =? "inf")%string || (w =? "infinity")%string then Some (S754_infinity neg)
  else if (w =? "nan")%string then Some S754_nan
  else None.

(** [float(s)] for a string [s]. *)
Definition float_of_string (s : string) : Exc spec_float :=
  match remove_underscores None (strip (list_ascii_of_string s)) with
  | None => Raised ValueError
  | Some l =>
      let (neg, body) := read_sign l in
      match read_decimal body with
      | Some (ds, e, []) => Ok (float_of_decimal neg ds e)
      | Some (_, _, _ :: _) => Raised ValueError
      | None =>
          match special_float neg body with
          | Some f => Ok f
          | None => Raised ValueError
          end
      end
  end.

(** *** Comparison and truth value *)

(** [z == f] for an [int] and a [float]: the exact values are compared. *)
Definition int_eq_float (z : Z) (f : spec_float) : bool :=
  match f with
  | S754_zero _ => z =? 0
  | S754_finite s m e =>
      if 0 <=? e then z =? cond_Zopp s (Zpos m) * 2 ^ e
      else z * 2 ^ (- e) =? cond_Zopp s (Zpos m)
  | _ => false
  end.

(** [a == b] on stored values. *)
Definition val_eqb (a b : Val) : bool :=
  match a, b with
  | PNone, PNone => true
  | PStr s, PStr t => String.eqb s t
  | PInt x, PInt y => x =? y
  | _, _ => false
  end.

(** [a == b] *)
Definition eqb (a b : Obj) : bool :=
  match a, b with
  | OVal u, OVal v => val_eqb u v
  | OFloat f, OFloat g => SFeqb f g
  | OVal (PInt x), OFloat g => int_eq_float x g
  | OFloat f, OVal (PInt y) => int_eq_float y f
  | _, _ => false
  end.

(** [bool(a)] *)
Definition truthy (a : Val) : bool :=
  match a with
  | PNone => false
  | PStr s => negb (String.eqb s "")
  | PInt z => negb (z =? 0)
  end.

Definition of_option (o : option string) : Val :=
  match o with
  | Some s => PStr s
  | None => PNone
  end.

Definition digit_char (d : Z) : ascii := ascii_of_N (Z.to_N (48 + d)).

Fixpoint digits_of_pos (fuel : nat) (z : Z) (acc : list ascii) : list ascii :=
  match fuel with
  | O => acc
  | S fuel' =>
      if z <? 10 then digit_char z :: acc
      else digits_of_pos fuel' (z / 10) (digit_char (z mod 10) :: acc)
  end.

Definition string_of_Z (z : Z) : string :=
  let ds := string_of_list_ascii
              (digits_of_pos (S (Z.to_nat (Z.log2 (Z.abs z)))) (Z.abs z) []) in
  if z <? 0 then String "-"%char ds else ds.

(** [str(a)], also what ["%s" % a] inserts.  (For an [int] this is its
    decimal writing; the interpreter's limit on the length of that
    writing is beyond any setting a server stores and is left out.) *)
Definition to_str (a : Val) : string :=
  match a with
  | PNone => "None"
  | PStr s => s
  | PInt z => string_of_Z z
  end.

(** [to_native(e)] for an exception caught by the module.  Only the
    driver's errors are raised inside its [try] blocks; the text of the
    built-in exceptions is not modelled. *)
Definition to_native (e : Exn) : string :=
  match e with
  | DbError msg => msg
  | _ => ""
  end.

End Py.

Import Py.

(** ** The value normalizer *)

(** [LOWERCASE_SIZE_UNITS] *)
Definition LOWERCASE_SIZE_UNITS : list string := ["mb"; "gb"; "tb"].

(** [PG_REQ_VER] *)
Definition PG_REQ_VER : Z := 90400.

(** The leading run of digit characters (the loop filling [num_part]). *)
Fixpoint leading_digits (l : list ascii) : list ascii :=
  match l with
  | c :: l' => if isdigit_char c then c :: leading_digits l' else []
  | [] => []
  end.

Definition num_part_of (s : string) : string :=
  string_of_list_ascii (leading_digits (list_ascii_of_string s)).

(** The unit suffix of [pretty_to_bytes]: [val_in_bytes] computed from
    [num_part], or [None]. *)
Definition val_in_bytes_of (s : string) (num_part : Z) : option Z :=
  let val_in_bytes :=
    if (2 <=? String.length s)%nat then
      if str_in "kB" (slice_last 2 s) then Some (num_part * 1024)
      else if str_in "MB" (slice_last 2 s) then Some (num_part * 1024 * 1024)
      else if str_in "GB" (slice_last 2 s) then
        Some (num_part * 1024 * 1024 * 1024)
      else if str_in "TB" (slice_last 2 s) then
        Some (num_part * 1024 * 1024 * 1024 * 1024)
      else None
    else None in
  let falsy :=
    match val_in_bytes with
    | None => true
    | Some v => v =? 0
    end in
  if falsy && str_in "B" (slice_last 1 s) then Some num_part
  else val_in_bytes.

(** [pretty_to_bytes(pretty_val)] *)
Definition pretty_to_bytes (pretty_val : Val) : Exc Obj :=
  if negb (truthy pretty_val) then Ok (OVal pretty_val)
  else
    match pretty_val with
    | PStr s =>
        match first_char s, last_char s with
        | Some c0, Some cl =>
            if negb (isdigit_char c0) then Ok (OVal pretty_val)
            else if negb (isalpha_char cl) then
              match int_of_string s with
              | Ok z => Ok (OVal (PInt z))
              | Raised ValueError =>
                  match float_of_string s with
                  | Ok f => Ok (OFloat f)
                  | Raised e => Raised e
                  end
              | Raised e => Raised e
              end
            else
              match int_of_string (num_part_of s) with
              | Raised e => Raised e
              | Ok num_part =>
                  match val_in_bytes_of s num_part with
                  | Some v => Ok (OVal (PInt v))
                  | None => Ok (OVal pretty_val)
                  end
              end
        | _, _ => Ok (OVal pretty_val)
        end
    | _ => Raised TypeError
    end.


(** ** The module's surroundings *)

(** [module.params] and [module.check_mode], as far as [main] reads them. *)
Record Params : Type := {
  p_name : string;
  p_value : option string;
  p_reset : bool;
  p_session_role : option string;
  p_trust_input : bool;
  p_check_mode : bool
}.

(** A [DictRow]: column names with their text, [None] for SQL NULL. *)
Definition DictRow : Type := list (string * option string).

(** The collaborators of the module: the input check and the connection
    helpers of [module_utils], and the server behind the connection.
    [env] is the state of everything outside the module. *)
Class Engine (env : Type) : Type := {
  conn_params : Type;
  (** [check_input(module, name, value, session_role)]: [Some msg] when
      it ends the run with [fail_json(msg=msg)]. *)
  check_input : string -> option string -> option string -> option string;
  (** [ensure_required_libs(module)], likewise. *)
  ensure_required_libs : env -> option string;
  get_conn_params : Params -> conn_params;
  (** [connect_to_db(module, conn_params, autocommit=True)]: the
      message of its [fail_json], or the state with the session open. *)
  connect_to_db : conn_params -> env -> string + env;
  (** [db_connection.server_version] *)
  server_version : env -> Z;
  (** [cursor.execute(query, args)]: the text of the driver's error, or
      the new state and the rows of the result. *)
  execute : string -> option string -> env -> string + (env * list DictRow)
}.

(** What the module does to its surroundings, in order. *)
Inductive Event : Type :=
| EvConnect
| EvExecute (query : string) (args : option string)
| EvCursorClose
| EvConnClose
| EvWarn (msg : string).

(** The keyword arguments of [exit_json]; [None] is an absent key. *)
Record Kw : Type := {
  kw_name : option string;
  kw_changed : option bool;
  kw_restart_required : option bool;
  kw_value_pretty : option Val;
  kw_prev_val_pretty : option Val;
  kw_value : option (Val * Val);
  kw_context : option Val
}.

Definition kw_empty : Kw :=
  {| kw_name := None; kw_changed := None; kw_restart_required := None;
     kw_value_pretty := None; kw_prev_val_pretty := None;
     kw_value := None; kw_context := None |}.

Definition set_name (x : string) (kw : Kw) : Kw :=
  {| kw_name := Some x; kw_changed := kw_changed kw;
     kw_restart_required := kw_restart_required kw;
     kw_value_pretty := kw_value_pretty kw;
     kw_prev_val_pretty := kw_prev_val_pretty kw;
     kw_value := kw_value kw; kw_context := kw_context kw |}.

Definition set_changed (x : bool) (kw : Kw) : Kw :=
  {| kw_name := kw_name kw; kw_changed := Some x;
     kw_restart_required := kw_restart_required kw;
     kw_value_pretty := kw_value_pretty kw;
     kw_prev_val_pretty := kw_prev_val_pretty kw;
     kw_value := kw_value kw; kw_context := kw_context kw |}.

Definition set_restart_required (x : bool) (kw : Kw) : Kw :=
  {| kw_name := kw_name kw; kw_changed := kw_changed kw;
     kw_restart_required := Some x;
     kw_value_pretty := kw_value_pretty kw;
     kw_prev_val_pretty := kw_prev_val_pretty kw;
     kw_value := kw_value kw; kw_context := kw_context kw |}.

Definition set_value_pretty (x : Val) (kw : Kw) : Kw :=
  {| kw_name := kw_name kw; kw_changed := kw_changed kw;
     kw_restart_required := kw_restart_required kw;
     kw_value_pretty := Some x;
     kw_prev_val_pretty := kw_prev_val_pretty kw;
     kw_value := kw_value kw; kw_context := kw_context kw |}.

Definition set_prev_val_pretty (x : Val) (kw : Kw) : Kw :=
  {| kw_name := kw_name kw; kw_changed := kw_changed kw;
     kw_restart_required := kw_restart_required kw;
     kw_value_pretty := kw_value_pretty kw;
     kw_prev_val_pretty := Some x;
     kw_value := kw_value kw; kw_context := kw_context kw |}.

(** [kw['value'] = dict(value=v, unit=u)] *)
Definition set_value (v u : Val) (kw : Kw) : Kw :=
  {| kw_name := kw_name kw; kw_changed := kw_changed kw;
     kw_restart_required := kw_restart_required kw;
     kw_value_pretty := kw_value_pretty kw;
     kw_prev_val_pretty := kw_prev_val_pretty kw;
     kw_value := Some (v, u); kw_context := kw_context kw |}.

Definition set_context (x : Val) (kw : Kw) : Kw :=
  {| kw_name := kw_name kw; kw_changed := kw_changed kw;
     kw_restart_required := kw_restart_required kw;
     kw_value_pretty := kw_value_pretty kw;
     kw_prev_val_pretty := kw_prev_val_pretty kw;
     kw_value := kw_value kw; kw_context := Some x |}.

(** The [changed] a caller sees: Ansible reads an absent key as false. *)
Definition reported_changed (kw : Kw) : bool :=
  match kw_changed kw with
  | Some b => b
  | None => false
  end.

(** What [param_get] returns. *)
Record Info : Type := {
  current_val : Val;
  raw_val : Val;
  unit_ : Val;
  boot_val : Val;
  context : Val
}.

Section Run.

Context {env : Type} {E : Engine env}.

(** The state a run threads: the surroundings, the rows the cursor
    still holds, and the events so far, the latest first. *)
Record World : Type := {
  w_env : env;
  w_rows : list DictRow;
  w_log : list Event
}.

(** How a piece of the module ends: it returns, the run ends in
    [exit_json] or [fail_json], or an exception is on its way up. *)
Inductive Outcome (A : Type) : Type :=
| Ret (a : A) (w : World)
| ExitJson (kw : Kw) (w : World)
| FailJson (msg : string) (w : World)
| Raise (e : Exn) (w : World).

Arguments Ret {A} a w.
Arguments ExitJson {A} kw w.
Arguments FailJson {A} msg w.
Arguments Raise {A} e w.

Definition M (A : Type) : Type := World -> Outcome A.

Definition ret {A} (a : A) : M A := fun w => Ret a w.

Definition bind {A B} (m : M A) (k : A -> M B) : M B :=
  fun w =>
    match m w with
    | Ret a w' => k a w'
    | ExitJson kw w' => ExitJson kw w'
    | FailJson msg w' => FailJson msg w'
    | Raise e w' => Raise e w'
    end.

Definition exit_json {A} (kw : Kw) : M A := fun w => ExitJson kw w.
Definition fail_json {A} (msg : string) : M A := fun w => FailJson msg w.
Definition raise {A} (e : Exn) : M A := fun w => Raise e w.

(** [try: body / except Exception as e: handler(e)] *)
Definition try_except {A} (body : M A) (handler : Exn -> M A) : M A :=
  fun w =>
    match body w with
    | Raise e w' => handler e w'
    | o => o
    end.

Definition lift_exc {A} (x : Exc A) : M A :=
  match x with
  | Ok a => ret a
  | Raised e => raise e
  end.

Definition emit (ev : Event) : M unit :=
  fun w => Ret tt {| w_env := w_env w; w_rows := w_rows w;
                     w_log := ev :: w_log w |}.

End Run.

Arguments Ret {env A} a w.
Arguments ExitJson {env A} kw w.
Arguments FailJson {env A} msg w.
Arguments Raise {env A} e w.
Arguments World env : clear implicits.
Arguments Outcome env A : clear implicits.
Arguments M env A : clear implicits.

Declare Scope run_scope.
Delimit Scope run_scope with run.
Notation "x <- m ;; k" := (bind m (fun x => k))
  (at level 61, m at next level, right associativity) : run_scope.
Notation "m ;;; k" := (bind m (fun _ => k))
  (at level 61, right associativity) : run_scope.

Local Open Scope run_scope.

(** ** The module *)

Section Module_.

Context {env : Type} {E : Engine env}.

(** *** The cursor and the connection *)

(** [cursor.execute(query, args)]; a driver error is raised. *)
Definition cursor_execute (query : string) (args : option string) : M env unit :=
  fun w =>
    let log := EvExecute query args :: w_log w in
    match execute query args (w_env w) with
    | inl msg =>
        Raise (DbError msg)
          {| w_env := w_env w; w_rows := w_rows w; w_log := log |}
    | inr (e', rows) =>
        Ret tt {| w_env := e'; w_rows := rows; w_log := log |}
    end.

(** [cursor.fetchone()] *)
Definition fetchone : M env (option DictRow) :=
  fun w =>
    match w_rows w with
    | [] => Ret None w
    | r :: rs =>
        Ret (Some r) {| w_env := w_env w; w_rows := rs; w_log := w_log w |}
    end.

(** [connect_to_db(module, conn_params, autocommit=True)] followed by
    [db_connection.cursor(cursor_factory=DictCursor)]. *)
Definition connect (cp : conn_params) : M env unit :=
  fun w =>
    match connect_to_db cp (w_env w) with
    | inl msg => FailJson msg w
    | inr e' =>
        Ret tt {| w_env := e'; w_rows := []; w_log := EvConnect :: w_log w |}
    end.

(** [cursor.close()] and [db_connection.close()] *)
Definition close_all : M env unit :=
  emit EvCursorClose ;;; emit EvConnClose.

Fixpoint lookup (k : string) (r : DictRow) : option (option string) :=
  match r with
  | [] => None
  | (k', v) :: r' => if String.eqb k k' then Some v else lookup k r'
  end.

(** [row[k]] *)
Definition getitem (row : DictRow) (k : string) : Exc Val :=
  match lookup k row with
  | Some v => Ok (of_option v)
  | None => Raised KeyError
  end.

(** [int(v)] *)
Definition py_int (v : Val) : Exc Z :=
  match v with
  | PNone => Raised TypeError
  | PStr s => int_of_string s
  | PInt z => Ok z
  end.

(** [if int(v) > 0: v = int(v) * factor] *)
Definition scale (factor : Z) (v : Val) : Exc Val :=
  match py_int v with
  | Raised e => Raised e
  | Ok n => if 0 <? n then Ok (PInt (n * factor)) else Ok v
  end.

(** ["True"] becomes ["on"] and ["False"] becomes ["off"]. *)
Definition normalize_boolean (v : Val) : Val :=
  if val_eqb v (PStr "True") then PStr "on"
  else if val_eqb v (PStr "False") then PStr "off"
  else v.

Definition select_query : string :=
  "SELECT name, setting, unit, context, boot_val FROM pg_settings WHERE name = %(name)s".

Definition show_query (name : string) : string := ("SHOW " ++ name)%string.

Definition unable_msg (name : string) (e : Exn) : string :=
  ("Unable to get " ++ name ++ " value due to : " ++ to_native e)%string.

Definition no_such_msg (name : string) : string :=
  ("No such parameter: " ++ name ++
   ". Please check its spelling or presence in your PostgreSQL version (https://www.postgresql.org/docs/current/runtime-config.html)")%string.

(** [param_get(cursor, module, name)] *)
Definition param_get (name : string) : M env Info :=
  r <- try_except
         (cursor_execute select_query (Some name) ;;;
          info <- fetchone ;;
          cursor_execute (show_query name) None ;;;
          val <- fetchone ;;
          ret (info, val))
         (fun e => fail_json (unable_msg name e)) ;;
  match fst r with
  | None | Some [] => fail_json (no_such_msg name)
  | Some info =>
      raw_val <- lift_exc (getitem info "setting") ;;
      unit <- lift_exc (getitem info "unit") ;;
      context <- lift_exc (getitem info "context") ;;
      boot_val <- lift_exc (getitem info "boot_val") ;;
      shown <- lift_exc (match snd r with
                         | None => Raised TypeError
                         | Some val => getitem val name
                         end) ;;
      let shown := normalize_boolean shown in
      if val_eqb unit (PStr "kB") then
        raw_val <- lift_exc (scale 1024 raw_val) ;;
        boot_val <- lift_exc (scale 1024 boot_val) ;;
        ret {| current_val := shown; raw_val := raw_val; unit_ := PStr "b";
               boot_val := boot_val; context := context |}
      else if val_eqb unit (PStr "MB") then
        raw_val <- lift_exc (scale (1024 * 1024) raw_val) ;;
        boot_val <- lift_exc (scale (1024 * 1024) boot_val) ;;
        ret {| current_val := shown; raw_val := raw_val; unit_ := PStr "b";
               boot_val := boot_val; context := context |}
      else
        ret {| current_val := shown; raw_val := raw_val; unit_ := unit;
               boot_val := boot_val; context := context |}
  end.

Definition reload_query : string := "SELECT pg_reload_conf()".

(** The statement [param_set] builds for [name] and [value]. *)
Definition alter_query (name : string) (value : Val) : string :=
  if (lower (to_str value) =? "default")%string
  then ("ALTER SYSTEM SET " ++ name ++ " = DEFAULT")%string
  else ("ALTER SYSTEM SET " ++ name ++ " = '" ++ to_str value ++ "'")%string.

(** [param_set(cursor, module, name, value, context)] *)
Definition param_set (name : string) (value : Val) (context : Val) : M env bool :=
  try_except
    (cursor_execute (alter_query name value) None ;;;
     if negb (val_eqb context (PStr "postmaster"))
     then cursor_execute reload_query None
     else ret tt)
    (fun e => fail_json (unable_msg name e)) ;;;
  ret true.

(** *** [main] *)

(** Lines 360-367: a lower-case size suffix is written in upper case. *)
Definition canonicalize_shorthand (value : option string) : option string :=
  match value with
  | Some v =>
      if truthy (PStr v) then
        if (2 <? String.length v)%nat && isdigit (slice_but_last 2 v)
           && in_tuple (slice_last 2 v) LOWERCASE_SIZE_UNITS
        then Some (upper v)
        else if (1 <? String.length v)%nat
                && (str_in "b" (slice_last 1 v) && isdigit (slice_but_last 1 v))
        then Some (upper v)
        else value
      else value
  | None => None
  end.

Definition exclusive_msg (name : string) : string :=
  (name ++ ": value and reset params are mutually exclusive")%string.

Definition missing_msg (name : string) : string :=
  (name ++ ": at least one of value or reset param must be specified")%string.

Definition internal_msg (name : string) : string :=
  (name ++ ": cannot be changed (internal context). See https://www.postgresql.org/docs/current/runtime-config-preset.html")%string.

Definition version_msg (ver : Z) : string :=
  ("PostgreSQL is " ++ string_of_Z ver ++ " version but "
   ++ string_of_Z PG_REQ_VER ++ " or later is required")%string.

Definition restart_msg (name : string) : string :=
  ("Restart of PostgreSQL is required for setting " ++ name)%string.

(** The contexts whose value is read again after the change. *)
Definition recheck_contexts : list string :=
  ["sighup"; "superuser-backend"; "backend"; "superuser"; "user"].

Definition in_recheck_contexts (context : Val) : bool :=
  existsb (fun c => val_eqb context (PStr c)) recheck_contexts.

(** Lines 386-393: the result returned for a server that is too old. *)
Definition old_version_kw (name : string) : Kw :=
  {| kw_name := Some name; kw_changed := Some false;
     kw_restart_required := Some false;
     kw_value_pretty := Some (PStr ""); kw_prev_val_pretty := Some (PStr "");
     kw_value := Some (PStr "", PStr ""); kw_context := None |}.

(** Lines 445-461: set or reset.  Returns [changed] and [kw]. *)
Definition apply_change (name : string) (value : Val) (reset : bool)
    (res : Info) (kw : Kw) : M env (bool * Kw) :=
  if negb (val_eqb value PNone) && negb (val_eqb value (current_val res)) then
    changed <- param_set name value (context res) ;;
    ret (changed, set_value_pretty value kw)
  else if reset then
    if val_eqb (raw_val res) (boot_val res) then
      exit_json (set_value (raw_val res) (unit_ res) kw)
    else
      changed <- param_set name (boot_val res) (context res) ;;
      ret (changed, kw)
  else ret (false, kw).

(** Lines 466-489: reconnect and compare the raw value read again. *)
Definition recheck (cp : conn_params) (name : string) (res : Info)
    (changed : bool) (kw : Kw) : M env (bool * Kw) :=
  if in_recheck_contexts (context res) then
    connect cp ;;;
    res' <- param_get name ;;
    let changed := negb (val_eqb (raw_val res) (raw_val res')) in
    let kw := set_value (raw_val res') (unit_ res)
                (set_value_pretty (current_val res') kw) in
    close_all ;;;
    ret (changed, kw)
  else ret (changed, kw).

(** Lines 429-443: the answer in check mode. *)
Definition check_mode_exit {A} (value : Val) (res : Info)
    (restart_required : bool) (kw : Kw) : M env A :=
  a <- lift_exc (pretty_to_bytes value) ;;
  b <- lift_exc (pretty_to_bytes (current_val res)) ;;
  let kw := if eqb a b then set_changed false kw
            else set_changed true (set_value_pretty value kw) in
  exit_json (set_restart_required restart_required
               (set_value (raw_val res) (unit_ res) kw)).

(** Lines 350-395 of [main]: the parameters are checked, the
    connection is opened and the server version is tested.  Returns the
    connection parameters and the desired value as rewritten. *)
Definition prologue (p : Params) : M env (conn_params * option string) :=
  let name := p_name p in
  let reset := p_reset p in
  (if negb (p_trust_input p) then
     match check_input name (p_value p) (p_session_role p) with
     | Some msg => fail_json msg
     | None => ret tt
     end
   else ret tt) ;;;
  let value := canonicalize_shorthand (p_value p) in
  (if (match value with Some _ => true | None => false end) && reset
   then fail_json (exclusive_msg name) else ret tt) ;;;
  (if (match value with Some _ => false | None => true end) && negb reset
   then fail_json (missing_msg name) else ret tt) ;;;
  (fun w => match ensure_required_libs (w_env w) with
            | Some msg => FailJson msg w
            | None => Ret tt w
            end) ;;;
  let cp := get_conn_params p in
  connect cp ;;;
  ver <- (fun w => Ret (server_version (w_env w)) w) ;;
  if ver <? PG_REQ_VER then
    emit (EvWarn (version_msg ver)) ;;;
    emit EvConnClose ;;;
    exit_json (old_version_kw name)
  else ret (cp, value).

(** The desired value [main] works with after line 414. *)
Definition desired (value : option string) : Val :=
  normalize_boolean (of_option value).

(** Lines 416-418: [kw] once the parameter has been read. *)
Definition initial_kw (name : string) (res : Info) : Kw :=
  set_context (context res)
    (set_value_pretty (current_val res)
       (set_prev_val_pretty (current_val res)
          (set_restart_required false (set_name name kw_empty)))).

(** Lines 420-497 of [main]: the work once the parameter is read. *)
Definition reconcile (p : Params) (cp : conn_params) (value : Val)
    (res : Info) : M env Empty_set :=
  let name := p_name p in
  let kw := initial_kw name res in
  if val_eqb (context res) (PStr "internal") then
    fail_json (internal_msg name)
  else
    let restart_required := val_eqb (context res) (PStr "postmaster") in
    if p_check_mode p then
      check_mode_exit value res restart_required kw
    else
      r <- apply_change name value (p_reset p) res kw ;;
      close_all ;;;
      r <- recheck cp name res (fst r) (snd r) ;;
      let kw := set_restart_required restart_required
                  (set_changed (fst r) (snd r)) in
      (if restart_required && fst r
       then emit (EvWarn (restart_msg name)) else ret tt) ;;;
      exit_json kw.

(** [main()], from the parsed parameters on. *)
Definition main (p : Params) : M env Empty_set :=
  r <- prologue p ;;
  res <- param_get (p_name p) ;;
  reconcile p (fst r) (desired (snd r)) res.

End Module_.

(** ** A small server to run the module against *)

Module Mock.

(** A server that knows one parameter.  [ALTER SYSTEM] statements it
    accepts are listed with the setting and display value they lead to;
    the new value becomes active at the next reload, unless the
    parameter needs a restart. *)
Record Server : Type := {
  sv_version : Z;
  sv_name : string;
  sv_setting : option string;
  sv_unit : option string;
  sv_context : option string;
  sv_boot_val : option string;
  sv_shown : string;
  sv_accepts : list (string * (string * string));
  sv_pending : option (string * string)
}.

Definition with_pending (pd : option (string * string)) (s : Server) : Server :=
  {| sv_version := sv_version s; sv_name := sv_name s;
     sv_setting := sv_setting s; sv_unit := sv_unit s;
     sv_context := sv_context s; sv_boot_val := sv_boot_val s;
     sv_shown := sv_shown s; sv_accepts := sv_accepts s;
     sv_pending := pd |}.

Definition activate (s : Server) : Server :=
  match sv_pending s with
  | Some (setting, shown) =>
      {| sv_version := sv_version s; sv_name := sv_name s;
         sv_setting := Some setting; sv_unit := sv_unit s;
         sv_context := sv_context s; sv_boot_val := sv_boot_val s;
         sv_shown := shown; sv_accepts := sv_accepts s;
         sv_pending := None |}
  | None => s
  end.

Fixpoint assoc (k : string) (l : list (string * (string * string)))
  : option (string * string) :=
  match l with
  | [] => None
  | (k', v) :: l' => if String.eqb k k' then Some v else assoc k l'
  end.

Definition row_of (s : Server) : DictRow :=
  [("name", Some (sv_name s)); ("setting", sv_setting s);
   ("unit", sv_unit s); ("context", sv_context s);
   ("boot_val", sv_boot_val s)].

Definition run_query (query : string) (args : option string) (s : Server)
  : string + (Server * list DictRow) :=
  if (query =? select_query)%string then
    match args with
    | Some n => if (n =? sv_name s)%string then inr (s, [row_of s])
                else inr (s, [])
    | None => inl "there is no parameter $1"
    end
  else if (query =? show_query (sv_name s))%string then
    inr (s, [[(sv_name s, Some (sv_shown s))]])
  else if (query =? reload_query)%string then
    inr (activate s, [[("pg_reload_conf", Some "t")]])
  else if prefix "ALTER SYSTEM SET " query then
    match assoc query (sv_accepts s) with
    | Some pd => inr (with_pending (Some pd) s, [])
    | None => inl "invalid value for parameter"
    end
  else inl "syntax error".

#[global] Instance engine : Engine Server := {
  conn_params := unit;
  check_input := fun _ _ _ => None;
  ensure_required_libs := fun _ => None;
  get_conn_params := fun _ => tt;
  connect_to_db := fun _ s => inr s;
  server_version := sv_version;
  execute := run_query
}.

Definition start (s : Server) : World Server :=
  {| w_env := s; w_rows := []; w_log := [] |}.

(** [work_mem], 4MB, context [user]. *)
Definition work_mem : Server :=
  {| sv_version := 150004; sv_name := "work_mem";
     sv_setting := Some "4096"; sv_unit := Some "kB";
     sv_context := Some "user"; sv_boot_val := Some "4096";
     sv_shown := "4MB";
     sv_accepts := [("ALTER SYSTEM SET work_mem = '32MB'", ("32768", "32MB"));
                    ("ALTER SYSTEM SET work_mem = '4096'", ("4096", "4MB"));
                    ("ALTER SYSTEM SET work_mem = '4194304'", ("4194304", "4GB"))];
     sv_pending := None |}.

(** [maintenance_work_mem], 1GB, context [user]. *)
Definition maintenance_work_mem : Server :=
  {| sv_version := 150004; sv_name := "maintenance_work_mem";
     sv_setting := Some "1048576"; sv_unit := Some "kB";
     sv_context := Some "user"; sv_boot_val := Some "65536";
     sv_shown := "1GB";
     sv_accepts := [("ALTER SYSTEM SET maintenance_work_mem = '1024MB'",
                     ("1048576", "1GB"))];
     sv_pending := None |}.


(** [work_mem] on a server of version 9.3. *)
Definition old_server : Server :=
  {| sv_version := 90300; sv_name := "work_mem";
     sv_setting := Some "4096"; sv_unit := Some "kB";
     sv_context := Some "user"; sv_boot_val := Some "4096";
     sv_shown := "4MB";
     sv_accepts := [];
     sv_pending := None |}.

(** [shared_buffers], 128MB in pages of 8kB, context [postmaster]. *)
Definition shared_buffers : Server :=
  {| sv_version := 150004; sv_name := "shared_buffers";
     sv_setting := Some "16384"; sv_unit := Some "8kB";
     sv_context := Some "postmaster"; sv_boot_val := Some "16384";
     sv_shown := "128MB";
     sv_accepts := [("ALTER SYSTEM SET shared_buffers = '256MB'",
                     ("32768", "256MB"));
                    ("ALTER SYSTEM SET shared_buffers = '16384'",
                     ("16384", "128MB"))];
     sv_pending := None |}.

(** [listen_addresses], context [postmaster]. *)
Definition listen_addresses : Server :=
  {| sv_version := 150004; sv_name := "listen_addresses";
     sv_setting := Some "localhost"; sv_unit := None;
     sv_context := Some "postmaster"; sv_boot_val := Some "localhost";
     sv_shown := "localhost";
     sv_accepts := [("ALTER SYSTEM SET listen_addresses = '127.0.0.1'",
                     ("127.0.0.1", "127.0.0.1"))];
     sv_pending := None |}.

(** [block_size], context [internal]. *)
Definition block_size : Server :=
  {| sv_version := 150004; sv_name := "block_size";
     sv_setting := Some "8192"; sv_unit := None;
     sv_context := Some "internal"; sv_boot_val := Some "8192";
     sv_shown := "8192";
     sv_accepts := [];
     sv_pending := None |}.

(** [temp_file_limit], in kB, with the special value -1. *)
Definition temp_file_limit : Server :=
  {| sv_version := 150004; sv_name := "temp_file_limit";
     sv_setting := Some "-1"; sv_unit := Some "kB";
     sv_context := Some "superuser"; sv_boot_val := Some "-1";
     sv_shown := "-1";
     sv_accepts := [];
     sv_pending := None |}.

(** [work_mem] raised to 32MB, its boot value being 4MB. *)
Definition work_mem_32MB : Server :=
  {| sv_version := 150004; sv_name := "work_mem";
     sv_setting := Some "32768"; sv_unit := Some "kB";
     sv_context := Some "user"; sv_boot_val := Some "4096";
     sv_shown := "32MB";
     sv_accepts := [("ALTER SYSTEM SET work_mem = '4194304'", ("4194304", "4GB"))];
     sv_pending := None |}.

(** [wal_log_hints], a boolean the driver shows as [True] or [False]. *)
Definition wal_log_hints : Server :=
  {| sv_version := 150004; sv_name := "wal_log_hints";
     sv_setting := Some "off"; sv_unit := None;
     sv_context := Some "postmaster"; sv_boot_val := Some "off";
     sv_shown := "False";
     sv_accepts := [("ALTER SYSTEM SET wal_log_hints = 'on'", ("on", "True"));
                    ("ALTER SYSTEM SET wal_log_hints = DEFAULT", ("off", "False"))];
     sv_pending := None |}.

(** A server that is down: its version is not known. *)
Definition down : Server :=
  {| sv_version := 0; sv_name := "work_mem";
     sv_setting := None; sv_unit := None;
     sv_context := None; sv_boot_val := None;
     sv_shown := "";
     sv_accepts := [];
     sv_pending := None |}.

(** A second stand-in for the collaborators: the input check refuses a
    name or a value with a semicolon, a server that is down refuses the
    connection, and [SHOW] also answers for [session_authorization],
    which the catalog view does not list. *)
Definition has_semicolon (o : option string) : bool :=
  match o with
  | Some s => str_in ";" s
  | None => false
  end.

Definition guarded_query (query : string) (args : option string) (s : Server)
  : string + (Server * list DictRow) :=
  if (query =? "SHOW session_authorization")%string
  then inr (s, [[("session_authorization", Some "postgres")]])
  else run_query query args s.

Definition guarded : Engine Server := {|
  conn_params := unit;
  check_input := fun name value _ =>
    if str_in ";" name || has_semicolon value
    then Some "Passed input is potentially dangerous" else None;
  ensure_required_libs := fun _ => None;
  get_conn_params := fun _ => tt;
  connect_to_db := fun _ s =>
    if sv_version s =? 0 then inl "unable to connect to database"
    else inr s;
  server_version := sv_version;
  execute := guarded_query
|}.

Definition request (name : string) (value : option string) (reset : bool)
    (check_mode : bool) : Params :=
  {| p_name := name; p_value := value; p_reset := reset;
     p_session_role := None; p_trust_input := true;
     p_check_mode := check_mode |}.

End Mock.



(** ** Notions the statements use *)

(** The events of a [param_get] that returns, the latest first. *)
Definition reads (name : string) : list Event :=
  [EvExecute (show_query name) None; EvExecute select_query (Some name)].

(** The value [param_get] returns for a catalog value [v] of a
    parameter measured in a unit of [factor] bytes. *)
Definition scaled (factor : Z) (v : option string) (out : Val) : Prop :=
  exists s n, v = Some s /\ int_of_string s = Ok n /\
              out = if 0 <? n then PInt (n * factor) else PStr s.

(** The events of a [param_set] that returns. *)
Definition writes (name : string) (value context : Val) : list Event :=
  (if val_eqb context (PStr "postmaster") then []
   else [EvExecute reload_query None])
  ++ [EvExecute (alter_query name value) None].

(** The desired value [main] compares and applies. *)
Definition desired_of (p : Params) : Val :=
  desired (canonicalize_shorthand (p_value p)).

(** [cursor.close()] and [db_connection.close()], the latest first. *)
Definition closes : list Event := [EvConnClose; EvCursorClose].

(** Line 446: the desired value is given and differs, as a string,
    from the display value. *)
Definition sets (p : Params) (res : Info) : bool :=
  negb (val_eqb (desired_of p) PNone)
  && negb (val_eqb (desired_of p) (current_val res)).

(** Lines 452-453: a reset of a parameter that is at its boot value. *)
Definition reset_noop (p : Params) (res : Info) : bool :=
  negb (sets p res) && p_reset p && val_eqb (raw_val res) (boot_val res).

(** The statements of the apply step of a run. *)
Definition applied (p : Params) (res : Info) : list Event :=
  if sets p res then writes (p_name p) (desired_of p) (context res)
  else if p_reset p then writes (p_name p) (boot_val res) (context res)
  else [].

(** Lines 494-495: the warning when a restart is required and the
    result says [changed]. *)
Definition restart_warning (p : Params) (res : Info) (changed : bool)
  : list Event :=
  if val_eqb (context res) (PStr "postmaster") && changed
  then [EvWarn (restart_msg (p_name p))] else [].

(** Lines 356-358: the input check lets the request through. *)
Definition input_passes {env : Type} {E : Engine env} (p : Params) : Prop :=
  p_trust_input p = true \/
  check_input (p_name p) (p_value p) (p_session_role p) = None.

(** [kw] after lines 445-461, when the run goes on. *)
Definition kw_after_apply (p : Params) (res : Info) : Kw :=
  if sets p res
  then set_value_pretty (desired_of p) (initial_kw (p_name p) res)
  else initial_kw (p_name p) res.

(** The result of lines 429-443 for the two values compared. *)
Definition check_mode_kw (p : Params) (res : Info) (same : bool) : Kw :=
  set_restart_required (val_eqb (context res) (PStr "postmaster"))
    (set_value (raw_val res) (unit_ res)
       (if same then set_changed false (initial_kw (p_name p) res)
        else set_changed true
               (set_value_pretty (desired_of p) (initial_kw (p_name p) res)))).

(** How often an event occurs in a log. *)
Definition count_event (f : Event -> bool) (log : list Event) : nat :=
  List.length (filter f log).

Definition is_connect (ev : Event) : bool :=
  match ev with EvConnect => true | _ => false end.

Definition is_conn_close (ev : Event) : bool :=
  match ev with EvConnClose => true | _ => false end.

(** The event is a statement that changes the server: anything executed
    but the two queries of [param_get]. *)
Definition is_statement (name : string) (ev : Event) : bool :=
  match ev with
  | EvExecute query _ =>
      negb ((query =? select_query)%string || (query =? show_query name)%string)
  | _ => false
  end.

(** *** Counting the reads of the catalog *)

(** The event is the query of [param_get] on [pg_settings]. *)
Definition is_fetch (ev : Event) : bool :=
  match ev with
  | EvExecute query _ => (query =? select_query)%string
  | _ => false
  end.

(** How many times the catalog row was asked for. *)
Definition fetches (log : list Event) : nat :=
  List.length (filter is_fetch log).


(** *** Runs against the small server *)

(** The result a run ended with, if it did. *)
Definition result_of {env A} (o : Outcome env A) : option Kw :=
  match o with
  | ExitJson kw _ => Some kw
  | _ => None
  end.

(** The events of a run, the latest first. *)
Definition log_of {env A} (o : Outcome env A) : list Event :=
  match o with
  | Ret _ w | ExitJson _ w | FailJson _ w | Raise _ w => w_log w
  end.

Module Scenario.

Import Mock.

(** [maintenance_work_mem] is 1GB and [value: 1024MB] is asked for. *)
Definition same_size : Outcome Server Empty_set :=
  main (request "maintenance_work_mem" (Some "1024MB") false false)
       (start maintenance_work_mem).


(** Scenario A: [work_mem] is 4MB and [value: 32mb] is asked for. *)
Definition shorthand : Outcome Server Empty_set :=
  main (request "work_mem" (Some "32mb") false false) (start work_mem).

(** Scenario E: the server is of version 9.3. *)
Definition old_version : Outcome Server Empty_set :=
  main (request "work_mem" (Some "32MB") false false) (start old_server).

(** [work_mem] is 4MB and [value: 4MB] is asked for. *)
Definition same_literal : Outcome Server Empty_set :=
  main (request "work_mem" (Some "4MB") false false) (start work_mem).

(** [work_mem] is at its boot value and [reset: true] is asked for. *)
Definition reset_at_boot (check_mode : bool) : Outcome Server Empty_set :=
  main (request "work_mem" None true check_mode) (start work_mem).

(** [shared_buffers] (context [postmaster]) is at its boot value and
    [reset: true] is asked for. *)
Definition reset_postmaster (check_mode : bool) : Outcome Server Empty_set :=
  main (request "shared_buffers" None true check_mode) (start shared_buffers).

(** [listen_addresses] is to become 127.0.0.1, in check mode. *)
Definition dotted_address : Outcome Server Empty_set :=
  main (request "listen_addresses" (Some "127.0.0.1") false true)
       (start listen_addresses).

End Scenario.

(** ** Facts about characters and strings *)

Section Strings.

Ltac by_cases_on c :=
  destruct c as [[] [] [] [] [] [] [] []]; vm_compute; intuition congruence.

Lemma decimal_isdigit c : is_decimal c = true -> isdigit_char c = true.
Proof. unfold isdigit_char. intros ->. reflexivity. Qed.

Lemma decimal_not_space c : is_decimal c = true -> is_space c = false.
Proof. by_cases_on c. Qed.

Lemma decimal_not_sign c :
  is_decimal c = true -> is_minus c = false /\ is_plus c = false.
Proof. by_cases_on c. Qed.

Lemma list_of_append a b :
  list_ascii_of_string (a ++ b)%string
  = list_ascii_of_string a ++ list_ascii_of_string b.
Proof. induction a as [|c a IH]; simpl; [reflexivity | now rewrite IH]. Qed.

Lemma length_list_of s : List.length (list_ascii_of_string s) = String.length s.
Proof. induction s as [|c s IH]; simpl; [reflexivity | now rewrite IH]. Qed.

Lemma drop_space_decimal l :
  forallb is_decimal l = true -> drop_space l = l.
Proof.
  destruct l as [|c l]; simpl; [reflexivity|].
  intros H. apply andb_prop in H as [Hc _].
  now rewrite (decimal_not_space c Hc).
Qed.

Lemma strip_decimal l : forallb is_decimal l = true -> strip l = l.
Proof.
  intros H. unfold strip. rewrite (drop_space_decimal l H).
  rewrite drop_space_decimal, rev_involutive; [reflexivity|].
  rewrite forallb_forall in *. intros c Hc. apply H. now apply in_rev.
Qed.

Lemma scan_digits_decimal l :
  forallb is_decimal l = true -> scan_digits l = (l, []).
Proof.
  induction l as [|c l IH]; simpl; [reflexivity|].
  intros H. apply andb_prop in H as [Hc Hl].
  now rewrite Hc, (IH Hl).
Qed.

(** [int] reads a run of decimal digits as the number they write, as
    long as the run is not longer than the interpreter allows. *)
Lemma int_of_string_decimal l :
  l <> [] -> forallb is_decimal l = true ->
  (List.length l <= int_max_str_digits)%nat ->
  int_of_string (string_of_list_ascii l) = Ok (Z_of_digits l).
Proof.
  intros Hne Hd Hlen. unfold int_of_string.
  rewrite list_ascii_of_string_of_list_ascii, (strip_decimal l Hd).
  destruct l as [|c l]; [congruence|].
  simpl in Hd. apply andb_prop in Hd as [Hc Hl].
  destruct (decimal_not_sign c Hc) as [Hm Hp].
  unfold read_sign. rewrite Hm, Hp. unfold digitpart.
  rewrite Hc, (scan_digits_decimal l Hl).
  destruct (int_max_str_digits <? _)%nat eqn:Hlt; [|reflexivity].
  apply Nat.ltb_lt in Hlt. lia.
Qed.

Lemma leading_digits_app ds rest :
  forallb is_decimal ds = true -> leading_digits rest = [] ->
  leading_digits (ds ++ rest) = ds.
Proof.
  intros Hd Hr. induction ds as [|c ds IH]; simpl; [exact Hr|].
  simpl in Hd. apply andb_prop in Hd as [Hc Hl].
  now rewrite (decimal_isdigit c Hc), (IH Hl).
Qed.


Lemma last_char_app s c :
  last_char (s ++ String c EmptyString) = Some c.
Proof.
  unfold last_char. rewrite list_of_append, map_app. simpl.
  apply last_last.
Qed.

Lemma slice_last_app (x : string) (suf : string) :
  slice_last (String.length suf) (x ++ suf) = suf.
Proof.
  unfold slice_last. rewrite list_of_append, length_app, !length_list_of.
  replace (String.length x + String.length suf - String.length suf)%nat
    with (List.length (list_ascii_of_string x) + 0)%nat
    by (rewrite length_list_of; lia).
  rewrite skipn_app, Nat.add_0_r, skipn_all.
  replace (_ - _)%nat with 0%nat by lia.
  simpl. apply string_of_list_ascii_of_string.
Qed.

Lemma append_assoc (a b c : string) :
  ((a ++ b) ++ c = a ++ (b ++ c))%string.
Proof. induction a as [|x a IH]; simpl; [reflexivity | now rewrite IH]. Qed.

Lemma length_append (a b : string) :
  String.length (a ++ b) = (String.length a + String.length b)%nat.
Proof. induction a as [|x a IH]; simpl; [reflexivity | now rewrite IH]. Qed.

Lemma prefix_same_length (a b : string) :
  String.length a = String.length b -> prefix a b = (a =? b)%string.
Proof.
  revert b. induction a as [|x a IH]; intros [|y b]; simpl; try discriminate;
    [reflexivity|].
  intros H. injection H as H. rewrite (IH b H).
  destruct (ascii_dec x y) as [->|Hxy].
  - now rewrite Ascii.eqb_refl.
  - apply Ascii.eqb_neq in Hxy. now rewrite Hxy.
Qed.

Lemma prefix_longer (a b : string) :
  (String.length b < String.length a)%nat -> prefix a b = false.
Proof.
  revert b. induction a as [|x a IH]; intros [|y b]; simpl; intros H;
    try lia; try reflexivity.
  destruct (ascii_dec x y); [apply IH; lia | reflexivity].
Qed.

Lemma str_in_longer (a b : string) :
  (String.length b < String.length a)%nat -> str_in a b = false.
Proof.
  induction b as [|y b IH]; intros H.
  - cbn [str_in]. now rewrite prefix_longer.
  - cbn [str_in]. rewrite prefix_longer by exact H.
    apply IH. simpl in H. lia.
Qed.

(** For strings of equal length, [a in b] is [a == b]. *)
Lemma str_in_same_length (a b : string) :
  String.length a = String.length b -> str_in a b = (a =? b)%string.
Proof.
  intros H. destruct b as [|y b].
  - destruct a; [reflexivity | discriminate].
  - cbn [str_in]. rewrite (prefix_same_length _ _ H).
    rewrite str_in_longer; [apply orb_false_r | simpl in H; lia].
Qed.

Lemma length_slice_last n s :
  (n <= String.length s)%nat -> String.length (slice_last n s) = n.
Proof.
  intros H. unfold slice_last.
  rewrite <- length_list_of, list_ascii_of_string_of_list_ascii, length_skipn.
  rewrite length_list_of. lia.
Qed.

End Strings.

(** ** The value normalizer: units *)

Section Units.

(** A literal that starts with decimal digits and ends in a letter is
    read as its leading number and its unit suffix. *)
Lemma pretty_to_bytes_digits (digits rest : string) (cl : ascii) :
  isdecimal digits = true ->
  (String.length digits <= int_max_str_digits)%nat ->
  num_part_of rest = "" ->
  last_char (digits ++ rest) = Some cl ->
  isalpha_char cl = true ->
  let s := (digits ++ rest)%string in
  let n := Z_of_digits (list_ascii_of_string digits) in
  pretty_to_bytes (PStr s)
  = Ok (OVal (match val_in_bytes_of s n with
              | Some v => PInt v
              | None => PStr s
              end)).
Proof.
  intros Hd Hlen Hrest Hlast Halpha s n. subst s n.
  destruct digits as [|c d]; [discriminate|].
  unfold isdecimal in Hd.
  assert (Hc : is_decimal c = true)
    by (simpl in Hd; now apply andb_prop in Hd as [? _]).
  unfold pretty_to_bytes.
  change (truthy (PStr (String c d ++ rest))) with true.
  cbn [negb first_char append].
  change (String c (d ++ rest))%string with (String c d ++ rest)%string.
  rewrite Hlast, (decimal_isdigit c Hc), Halpha. cbn [negb].
  assert (Hnum : num_part_of (String c d ++ rest) = String c d).
  { unfold num_part_of. rewrite list_of_append, leading_digits_app.
    - apply string_of_list_ascii_of_string.
    - exact Hd.
    - unfold num_part_of in Hrest.
      destruct (leading_digits (list_ascii_of_string rest));
        [reflexivity | discriminate]. }
  rewrite Hnum.
  rewrite <- (string_of_list_ascii_of_string (String c d)) at 1.
  rewrite int_of_string_decimal.
  - now destruct (val_in_bytes_of _ _).
  - discriminate.
  - exact Hd.
  - now rewrite length_list_of.
Qed.

Ltac suffix_slices x :=
  repeat match goal with
  | |- context [slice_last 2 (x ++ ?suf)] =>
      change (slice_last 2 (x ++ suf))
        with (slice_last (String.length suf) (x ++ suf));
      rewrite (slice_last_app x suf)
  end.

Lemma val_in_bytes_of_suffix (x : string) (n : Z) :
  val_in_bytes_of (x ++ "kB") n = Some (n * 1024 ^ 1) /\
  val_in_bytes_of (x ++ "MB") n = Some (n * 1024 ^ 2) /\
  val_in_bytes_of (x ++ "GB") n = Some (n * 1024 ^ 3) /\
  val_in_bytes_of (x ++ "TB") n = Some (n * 1024 ^ 4).
Proof.
  assert (Hone : forall a, slice_last 1 (x ++ String a "B") = "B").
  { intros a.
    change (x ++ String a "B")%string with (x ++ (String a "" ++ "B"))%string.
    rewrite <- append_assoc. apply (slice_last_app _ "B"). }
  assert (Hlen : forall suf, String.length suf = 2%nat ->
                 (2 <=? String.length (x ++ suf))%nat = true).
  { intros suf H. apply Nat.leb_le. rewrite length_append. lia. }
  unfold val_in_bytes_of.
  rewrite !Hlen, !Hone by reflexivity. suffix_slices x.
  repeat match goal with
  | |- context [str_in ?a ?b] =>
      let v := eval vm_compute in (str_in a b) in
      change (str_in a b) with v
  end.
  repeat split.
  all: match goal with
       | |- context [?v =? 0] => destruct (Z.eqb_spec v 0) as [H0|H0]
       end; cbn [andb]; f_equal; lia.
Qed.

Lemma val_in_bytes_of_B (s : string) (n : Z) :
  (2 <= String.length s)%nat ->
  slice_last 1 s = "B" ->
  in_tuple (slice_last 2 s) ["kB"; "MB"; "GB"; "TB"] = false ->
  val_in_bytes_of s n = Some (n * 1024 ^ 0).
Proof.
  intros Hlen Hone Hnot. unfold val_in_bytes_of.
  apply Nat.leb_le in Hlen as Hlen'. rewrite Hlen', Hone.
  pose proof (length_slice_last 2 s Hlen) as H2.
  rewrite !str_in_same_length by (rewrite H2; reflexivity).
  unfold in_tuple in Hnot. cbn [existsb] in Hnot.
  rewrite !(String.eqb_sym (slice_last 2 s)) in Hnot.
  repeat (apply orb_false_elim in Hnot as [?H Hnot]).
  repeat match goal with H : (_ =? _)%string = false |- _ => rewrite H; clear H end.
  cbn. f_equal. lia.
Qed.

End Units.




(** ** Runs of the module *)

(** Case analysis on the innermost scrutinee of a [match] in [H]. *)
Ltac split_match H :=
  match type of H with
  | context [match ?x with _ => _ end] =>
      lazymatch x with
      | context [match _ with _ => _ end] => fail
      | _ => destruct x eqn:?
      end
  end.

Ltac run_inv H :=
  repeat (first [ discriminate H
                | progress (cbn beta iota in H)
                | split_match H ]).

(** Projections are computed, equations between constructors are used. *)
Ltac tidy :=
  repeat (first
    [ progress (cbn [w_env w_rows w_log fst snd tl] in * )
    | progress subst
    | match goal with
      | H : Some _ = Some _ |- _ => injection H as H
      | H : Ok _ = Ok _ |- _ => injection H as H
      | H : inr _ = inr _ |- _ => injection H as H
      | H : (_, _) = (_, _) |- _ => injection H as ? H
      | H : _ :: _ = _ :: _ |- _ => injection H as ? H
      | H : Ret _ _ = Ret _ _ |- _ => injection H as ? H
      | H : ExitJson _ _ = ExitJson _ _ |- _ => injection H as ? H
      | H : FailJson _ _ = FailJson _ _ |- _ => injection H as ? H
      | H : Raise _ _ = Raise _ _ |- _ => injection H as ? H
      end ]).

Section Runs.

Context {env : Type} {E : Engine env}.

Lemma val_eqb_str_true o s :
  val_eqb (of_option o) (PStr s) = true -> o = Some s.
Proof.
  destruct o as [t|]; simpl; [|discriminate].
  intros H. apply String.eqb_eq in H. now subst.
Qed.

Lemma val_eqb_str_false o s :
  val_eqb (of_option o) (PStr s) = false -> o <> Some s.
Proof.
  intros H ->. simpl in H. now rewrite String.eqb_refl in H.
Qed.

Lemma scale_scaled factor v out :
  scale factor (of_option v) = Ok out -> scaled factor v out.
Proof.
  unfold scale, scaled. destruct v as [s|]; simpl; [|discriminate].
  destruct (int_of_string s) as [n|] eqn:Hn; [|discriminate].
  intros H. exists s, n. split; [reflexivity|]. split; [exact Hn|].
  destruct (0 <? n); congruence.
Qed.

(** What a [param_get] that returns has done and read. *)
Lemma param_get_ret name w res w' :
  param_get name w = Ret res w' ->
  exists e1 row rows1 e2 rows2 u vs vb vc,
    execute select_query (Some name) (w_env w) = inr (e1, row :: rows1) /\
    execute (show_query name) None e1 = inr (e2, rows2) /\
    w' = {| w_env := e2; w_rows := tl rows2;
            w_log := reads name ++ w_log w |} /\
    lookup "unit" row = Some u /\
    lookup "setting" row = Some vs /\
    lookup "boot_val" row = Some vb /\
    lookup "context" row = Some vc /\
    context res = of_option vc /\
    (exists shown, current_val res = normalize_boolean shown) /\
    (u = Some "kB" ->
       unit_ res = PStr "b" /\
       scaled 1024 vs (raw_val res) /\ scaled 1024 vb (boot_val res)) /\
    (u = Some "MB" ->
       unit_ res = PStr "b" /\
       scaled (1024 * 1024) vs (raw_val res) /\
       scaled (1024 * 1024) vb (boot_val res)) /\
    (u <> Some "kB" -> u <> Some "MB" ->
       unit_ res = of_option u /\
       raw_val res = of_option vs /\ boot_val res = of_option vb).
Proof.
  unfold param_get, bind, try_except, cursor_execute, fetchone, lift_exc,
    getitem, ret, raise, fail_json.
  intros H. cbn [w_env w_rows w_log] in H. run_inv H.
  all: tidy.
  all: match goal with
       | H1 : execute select_query _ _ = inr (?e1, ?row :: ?rows1),
         H2 : execute (show_query _) _ _ = inr (?e2, ?rows2),
         Hu : lookup "unit" ?row = Some ?u,
         Hs : lookup "setting" ?row = Some ?vs,
         Hb : lookup "boot_val" ?row = Some ?vb,
         Hc : lookup "context" ?row = Some ?vc |- _ =>
           exists e1, row, rows1, e2, rows2, u, vs, vb, vc
       end.
  all: repeat (split; [first [assumption | reflexivity]|]).
  all: cbn [context current_val unit_ raw_val boot_val].
  all: split; [eexists; reflexivity|].
  all: repeat match goal with
       | H : val_eqb _ (PStr _) = true |- _ => apply val_eqb_str_true in H
       | H : val_eqb _ (PStr _) = false |- _ => apply val_eqb_str_false in H
       | H : scale _ _ = Ok _ |- _ => apply scale_scaled in H
       end.
  all: repeat split; intros; subst; try congruence; try assumption.
Qed.

Lemma param_get_log name w res w' :
  param_get name w = Ret res w' -> w_log w' = reads name ++ w_log w.
Proof.
  intros H.
  apply param_get_ret in H
    as (e1 & row & rows1 & e2 & rows2 & u & vs & vb & vc & H).
  destruct H as (_ & _ & -> & _). reflexivity.
Qed.

(** [param_get] returns, fails or raises; it never ends the run with a
    result. *)
Lemma param_get_no_exit name w kw w' : param_get name w <> ExitJson kw w'.
Proof.
  unfold param_get, bind, try_except, cursor_execute, fetchone, lift_exc,
    getitem, ret, raise, fail_json.
  intros H. cbn [w_env w_rows w_log] in H. run_inv H.
Qed.

Lemma param_set_ret name value ctx w b w' :
  param_set name value ctx w = Ret b w' ->
  b = true /\ w_log w' = writes name value ctx ++ w_log w.
Proof.
  unfold param_set, writes, bind, try_except, cursor_execute, ret, fail_json.
  intros H. cbn [w_env w_rows w_log] in H.
  destruct (val_eqb ctx (PStr "postmaster")); cbn [negb] in H; run_inv H.
  all: tidy; split; reflexivity.
Qed.

Lemma param_set_no_exit name value ctx w kw w' :
  param_set name value ctx w <> ExitJson kw w'.
Proof.
  unfold param_set, bind, try_except, cursor_execute, ret, fail_json.
  intros H. cbn [w_env w_rows w_log] in H.
  destruct (val_eqb ctx (PStr "postmaster")); cbn [negb] in H; run_inv H.
Qed.

Lemma connect_ret cp w u w' :
  connect cp w = Ret u w' ->
  w_log w' = EvConnect :: w_log w /\
  connect_to_db cp (w_env w) = inr (w_env w').
Proof.
  unfold connect. intros H. run_inv H. tidy. split; reflexivity.
Qed.

Lemma connect_no_exit cp w kw w' : connect cp w <> ExitJson kw w'.
Proof. unfold connect. intros H. run_inv H. Qed.

Lemma canonicalize_shorthand_none value :
  canonicalize_shorthand value = None <-> value = None.
Proof.
  unfold canonicalize_shorthand. destruct value as [v|]; [|tauto].
  repeat match goal with |- context [if ?b then _ else _] => destruct b end;
    split; discriminate.
Qed.

(** A [prologue] that returns has opened the connection, and nothing
    else; exactly one of [value] and [reset] was given. *)
Lemma prologue_ret p w r w1 :
  prologue p w = Ret r w1 ->
  r = (get_conn_params p, canonicalize_shorthand (p_value p)) /\
  w_log w1 = EvConnect :: w_log w /\
  PG_REQ_VER <= server_version (w_env w1) /\
  (p_reset p = true <-> p_value p = None).
Proof.
  unfold prologue, bind, ret, fail_json, exit_json, emit.
  intros H. pose proof (canonicalize_shorthand_none (p_value p)) as Hn.
  run_inv H.
  all: repeat match goal with
       | H : connect _ _ = Ret _ _ |- _ => apply connect_ret in H as [? ?]
       | H : (_ <? _) = false |- _ => apply Z.ltb_ge in H
       end; tidy.
  all: repeat (split; [first [assumption | reflexivity]|]).
  all: destruct (p_reset p); simpl in *; intuition congruence.
Qed.


End Runs.

(** ** Runs that change the server *)

Section Execute.

Context {env : Type} {E : Engine env}.

Lemma recheck_not_postmaster ctx :
  val_eqb ctx (PStr "postmaster") = true -> in_recheck_contexts ctx = false.
Proof.
  destruct ctx as [|s|z]; try discriminate. simpl.
  intros H. apply String.eqb_eq in H. now subst.
Qed.

(** What a run outside check mode does once the parameter is read:
    either the reset is a no-op, or the apply step runs (if there is
    anything to apply) and then, for the contexts of the re-read, the
    parameter is read again over a new connection. *)
Lemma execute_mode_run (p : Params) (w w1 w2 w' : World env)
    (r : conn_params * option string) (res : Info) (kw : Kw) :
  prologue p w = Ret r w1 ->
  param_get (p_name p) w1 = Ret res w2 ->
  p_check_mode p = false ->
  main p w = ExitJson kw w' ->
  if reset_noop p res then
    kw = set_value (raw_val res) (unit_ res) (initial_kw (p_name p) res)
    /\ w' = w2
  else
    kw_restart_required kw = Some (val_eqb (context res) (PStr "postmaster"))
    /\
    if in_recheck_contexts (context res) then
      exists w3 res' w4,
        param_get (p_name p) w3 = Ret res' w4 /\
        w_log w3 = EvConnect :: closes ++ applied p res ++ w_log w2 /\
        w_log w' = closes ++ w_log w4 /\
        kw_changed kw = Some (negb (val_eqb (raw_val res) (raw_val res'))) /\
        kw_value kw = Some (raw_val res', unit_ res) /\
        kw_value_pretty kw = Some (current_val res')
    else
      let changed := sets p res || p_reset p in
      kw_changed kw = Some changed /\
      w_log w' = restart_warning p res changed ++ closes ++ applied p res
                 ++ w_log w2.
Proof.
  intros Hpro Hget Hmode H.
  unfold main, bind in H. rewrite Hpro, Hget in H.
  apply prologue_ret in Hpro as (-> & _).
  unfold reconcile, apply_change, recheck, close_all, emit, bind, ret,
    exit_json, fail_json in H.
  rewrite Hmode in H. cbn [fst snd] in H.
  unfold reset_noop, applied, restart_warning, sets, desired_of.
  pose proof (recheck_not_postmaster (context res)) as Hpm.
  run_inv H.
  all: try match goal with
       | H : param_set _ _ _ _ = ExitJson _ _ |- _ =>
           now apply param_set_no_exit in H
       | H : param_get _ _ = ExitJson _ _ |- _ =>
           now apply param_get_no_exit in H
       | H : connect _ _ = ExitJson _ _ |- _ =>
           now apply connect_no_exit in H
       end.
  all: repeat match goal with
       | H : param_set _ _ _ _ = Ret _ _ |- _ =>
           apply param_set_ret in H as [? ?]
       | H : connect _ _ = Ret _ _ |- _ => apply connect_ret in H as [? _]
       end.
  all: tidy.
  all: cbn [negb andb orb].
  all: destruct (val_eqb (context res) (PStr "postmaster")) eqn:Hp;
       cbn [andb] in *; try discriminate;
       try (specialize (Hpm eq_refl); discriminate).
  all: try match goal with
       | H2 : w_log ?w3 = EvConnect :: _,
         Hg : param_get _ ?w3 = Ret ?r ?w4 |- _ =>
           split; [reflexivity|]; exists w3, r, w4
       end.
  all: unfold closes; cbn [app].
  all: repeat match goal with H : w_log _ = _ |- _ => rewrite H end.
  all: repeat split; try assumption; try reflexivity.
Qed.

(** In check mode nothing happens after the parameter is read. *)
Lemma check_mode_run (p : Params) (w w1 w2 w' : World env)
    (r : conn_params * option string) (res : Info) (kw : Kw) :
  prologue p w = Ret r w1 ->
  param_get (p_name p) w1 = Ret res w2 ->
  p_check_mode p = true ->
  main p w = ExitJson kw w' ->
  w' = w2 /\
  kw_restart_required kw = Some (val_eqb (context res) (PStr "postmaster")).
Proof.
  intros Hpro Hget Hmode H.
  unfold main, bind in H. rewrite Hpro, Hget in H.
  unfold reconcile, check_mode_exit, bind, lift_exc, ret, raise,
    exit_json, fail_json in H.
  rewrite Hmode in H. run_inv H.
  all: tidy; split; reflexivity.
Qed.

Lemma val_eqb_eq a b : val_eqb a b = true <-> a = b.
Proof.
  destruct a, b; simpl; split; intros H; try discriminate; try reflexivity.
  - apply String.eqb_eq in H. now subst.
  - injection H as ->. apply String.eqb_refl.
  - apply Z.eqb_eq in H. now subst.
  - injection H as ->. apply Z.eqb_refl.
Qed.

Lemma val_eqb_neq a b : val_eqb a b = false <-> a <> b.
Proof.
  pose proof (val_eqb_eq a b) as H.
  destruct (val_eqb a b); intuition congruence.
Qed.

Lemma fetches_app l1 l2 : fetches (l1 ++ l2) = (fetches l1 + fetches l2)%nat.
Proof. unfold fetches. now rewrite filter_app, length_app. Qed.

Lemma fetches_reads name : fetches (reads name) = 1%nat.
Proof. reflexivity. Qed.

Lemma fetches_writes name value ctx : fetches (writes name value ctx) = 0%nat.
Proof.
  unfold writes, alter_query.
  destruct (val_eqb ctx _), (lower (to_str value) =? "default")%string;
    reflexivity.
Qed.

Lemma fetches_applied p res : fetches (applied p res) = 0%nat.
Proof.
  unfold applied.
  destruct (sets p res), (p_reset p); try apply fetches_writes; reflexivity.
Qed.

Lemma In_writes name value ctx :
  In (EvExecute (alter_query name value) None) (writes name value ctx).
Proof. unfold writes. apply in_or_app. right. left. reflexivity. Qed.

End Execute.

(** ** The claims about a run *)

Section Claims.

Context {env : Type} {E : Engine env}.


(** C6: a parameter whose context is [internal] makes the run fail with
    the "cannot be changed" message, in check mode or not; up to then
    the module has connected and read the parameter, nothing else. *)
Theorem internal_context_fails (p : Params) (w w1 w2 : World env)
    (r : conn_params * option string) (res : Info) :
  prologue p w = Ret r w1 ->
  param_get (p_name p) w1 = Ret res w2 ->
  context res = PStr "internal" ->
  main p w = FailJson (internal_msg (p_name p)) w2 /\
  w_log w2 = reads (p_name p) ++ EvConnect :: w_log w.
Proof.
  intros Hpro Hget Hctx. split.
  - unfold main, bind. rewrite Hpro, Hget. unfold reconcile.
    now rewrite Hctx.
  - apply prologue_ret in Hpro as (_ & Hlog & _).
    apply param_get_log in Hget. now rewrite Hget, Hlog.
Qed.


(** C1, amended: outside check mode, when the desired value is given and
    is not the display value read, letter for letter, the [ALTER SYSTEM]
    statement for it is executed.  If the context is not one of those
    read again (as for [postmaster]) the result has [changed = true];
    otherwise the parameter is read again and [changed] tells whether
    the raw value read differs from the one read before - so it is
    false when the setting has not moved. *)
Theorem literal_mismatch_applies (p : Params) (w w1 w2 w' : World env)
    (r : conn_params * option string) (res : Info) (kw : Kw) (v : string) :
  prologue p w = Ret r w1 ->
  param_get (p_name p) w1 = Ret res w2 ->
  p_check_mode p = false ->
  desired_of p = PStr v ->
  current_val res <> PStr v ->
  main p w = ExitJson kw w' ->
  In (EvExecute (alter_query (p_name p) (PStr v)) None) (w_log w') /\
  (in_recheck_contexts (context res) = false -> kw_changed kw = Some true) /\
  (in_recheck_contexts (context res) = true ->
   exists w3 res' w4,
     param_get (p_name p) w3 = Ret res' w4 /\
     w_log w3 = EvConnect :: closes
                ++ writes (p_name p) (PStr v) (context res) ++ w_log w2 /\
     w_log w' = closes ++ w_log w4 /\
     kw_changed kw = Some (negb (val_eqb (raw_val res) (raw_val res')))).
Proof.
  intros Hpro Hget Hmode Hv Hcur H.
  pose proof (execute_mode_run p w w1 w2 w' r res kw Hpro Hget Hmode H) as R.
  assert (Hsets : sets p res = true).
  { unfold sets. rewrite Hv.
    change (val_eqb (PStr v) PNone) with false. cbn [negb andb].
    apply negb_true_iff. apply (proj2 (val_eqb_neq _ _)). congruence. }
  unfold reset_noop, applied in R. rewrite Hsets, Hv in R.
  cbn [negb andb orb] in R. destruct R as [_ R].
  destruct (in_recheck_contexts (context res)).
  - destruct R as (w3 & res' & w4 & Hget' & Hlog3 & Hlog' & Hch & _).
    split; [|split; [discriminate|]].
    + rewrite Hlog', (param_get_log _ _ _ _ Hget'), Hlog3.
      apply in_or_app; right. apply in_or_app; right. right.
      apply in_or_app; right. apply in_or_app; left. apply In_writes.
    + intros _. exists w3, res', w4. auto.
  - destruct R as [Hch Hlog]. split; [|split; [auto | discriminate]].
    rewrite Hlog.
    apply in_or_app; right. apply in_or_app; right.
    apply in_or_app; left. apply In_writes.
Qed.

(** C3, amended: a run that ends with a result asks for the catalog row
    once more exactly when it is not in check mode, the context is one
    of sighup, superuser-backend, backend, superuser, user, and the run
    did not stop at a reset with nothing to change - whether or not the
    apply step issued a statement.  The result then has [changed] set to
    whether the raw value read before differs from the one read again,
    and reports the latter. *)
Theorem reread_decides_changed (p : Params) (w w1 w2 w' : World env)
    (r : conn_params * option string) (res : Info) (kw : Kw) :
  prologue p w = Ret r w1 ->
  param_get (p_name p) w1 = Ret res w2 ->
  main p w = ExitJson kw w' ->
  let reread := negb (p_check_mode p) && negb (reset_noop p res)
                && in_recheck_contexts (context res) in
  fetches (w_log w') = (fetches (w_log w) + if reread then 2 else 1)%nat /\
  (reread = true ->
   exists w3 res' w4,
     param_get (p_name p) w3 = Ret res' w4 /\
     w_log w3 = EvConnect :: closes ++ applied p res ++ w_log w2 /\
     w_log w' = closes ++ w_log w4 /\
     kw_changed kw = Some (negb (val_eqb (raw_val res) (raw_val res'))) /\
     kw_value kw = Some (raw_val res', unit_ res)).
Proof.
  intros Hpro Hget H reread. subst reread.
  assert (Hlog2 : fetches (w_log w2) = (fetches (w_log w) + 1)%nat).
  { rewrite (param_get_log _ _ _ _ Hget).
    apply prologue_ret in Hpro as (_ & -> & _).
    rewrite fetches_app, fetches_reads.
    change (fetches (EvConnect :: w_log w)) with (fetches (w_log w)). lia. }
  destruct (p_check_mode p) eqn:Hmode.
  - destruct (check_mode_run p w w1 w2 w' r res kw Hpro Hget Hmode H)
      as [-> _].
    split; [exact Hlog2 | discriminate].
  - pose proof (execute_mode_run p w w1 w2 w' r res kw Hpro Hget Hmode H)
      as R.
    destruct (reset_noop p res); cbn [negb andb].
    + destruct R as [_ ->]. split; [exact Hlog2 | discriminate].
    + destruct R as [_ R]. destruct (in_recheck_contexts (context res)).
      * destruct R as (w3 & res' & w4 & Hget' & Hlog3 & Hlog' & Hch & Hval & _).
        split.
        -- rewrite Hlog', (param_get_log _ _ _ _ Hget'), Hlog3.
           rewrite !fetches_app, fetches_reads.
           change (fetches (EvConnect :: closes ++ applied p res ++ w_log w2))
             with (fetches (applied p res ++ w_log w2)).
           rewrite fetches_app, fetches_applied, Hlog2.
           change (fetches closes) with 0%nat. lia.
        -- intros _. exists w3, res', w4. auto.
      * destruct R as [_ Hlog]. split; [|discriminate].
        rewrite Hlog, !fetches_app, fetches_applied, Hlog2.
        unfold restart_warning.
        destruct (_ && _); change (fetches closes) with 0%nat;
          cbn [fetches filter is_fetch List.length]; lia.
Qed.

(** C9, amended: when the catalog gives the unit as [kB] or [MB], the
    unit returned is [b], and the setting and the boot value are
    returned as integers scaled by 1024 or 1024 * 1024 when they are
    positive; a value that is zero or negative is returned as the
    catalog has it, unscaled. *)
Theorem param_get_byte_units (name : string) (w w' : World env) (res : Info) :
  param_get name w = Ret res w' ->
  exists e1 row rows,
    execute select_query (Some name) (w_env w) = inr (e1, row :: rows) /\
    forall factor,
      lookup "unit" row = Some (Some "kB") /\ factor = 1024 \/
      lookup "unit" row = Some (Some "MB") /\ factor = 1024 * 1024 ->
      unit_ res = PStr "b" /\
      exists setting boot n b,
        lookup "setting" row = Some (Some setting) /\
        lookup "boot_val" row = Some (Some boot) /\
        int_of_string setting = Ok n /\
        int_of_string boot = Ok b /\
        raw_val res = (if 0 <? n then PInt (n * factor) else PStr setting) /\
        boot_val res = (if 0 <? b then PInt (b * factor) else PStr boot).
Proof.
  intros H.
  apply param_get_ret in H
    as (e1 & row & rows1 & e2 & rows2 & u & vs & vb & vc & H).
  destruct H as (Hsel & _ & _ & Hu & Hs & Hb & _ & _ & _ & HkB & HMB & _).
  exists e1, row, rows1. split; [exact Hsel|].
  intros factor [[Hunit ->] | [Hunit ->]].
  - assert (u = Some "kB") as Hk by congruence.
    destruct (HkB Hk) as (Hb' & (s1 & n1 & -> & Hn1 & Hr) & (s2 & n2 & -> & Hn2 & Hbv)).
    split; [exact Hb'|]. exists s1, s2, n1, n2. auto 10.
  - assert (u = Some "MB") as Hk by congruence.
    destruct (HMB Hk) as (Hb' & (s1 & n1 & -> & Hn1 & Hr) & (s2 & n2 & -> & Hn2 & Hbv)).
    split; [exact Hb'|]. exists s1, s2, n1, n2. auto 10.
Qed.

(** *** What holds around the two defects *)

(** X23.  For a [postmaster] parameter every result carries
    [restart_required = true], except the one of a reset that has
    nothing to change outside check mode; and the run executes no
    reload. *)
Lemma postmaster_restart_required (p : Params) (w w1 w2 w' : World env)
    (r : conn_params * option string) (res : Info) (kw : Kw) :
  prologue p w = Ret r w1 ->
  param_get (p_name p) w1 = Ret res w2 ->
  context res = PStr "postmaster" ->
  main p w = ExitJson kw w' ->
  kw_restart_required kw = Some (p_check_mode p || negb (reset_noop p res)) /\
  (In (EvExecute reload_query None) (w_log w') ->
   In (EvExecute reload_query None) (w_log w)).
Proof.
  intros Hpro Hget Hctx H.
  assert (Hlog2 : In (EvExecute reload_query None) (w_log w2) ->
                  In (EvExecute reload_query None) (w_log w)).
  { rewrite (param_get_log _ _ _ _ Hget).
    apply prologue_ret in Hpro as (_ & -> & _).
    cbn [reads app In]. intros [Hq | [Hq | [Hq | Hin]]];
      [discriminate Hq | discriminate Hq | discriminate Hq | exact Hin]. }
  destruct (p_check_mode p) eqn:Hmode; cbn [orb].
  - destruct (check_mode_run p w w1 w2 w' r res kw Hpro Hget Hmode H)
      as [-> Hrr].
    rewrite Hctx in Hrr. split; [exact Hrr | exact Hlog2].
  - pose proof (execute_mode_run p w w1 w2 w' r res kw Hpro Hget Hmode H)
      as R.
    destruct (reset_noop p res); cbn [negb].
    + destruct R as [-> ->]. split; [reflexivity | exact Hlog2].
    + rewrite Hctx in R. cbn [in_recheck_contexts recheck_contexts existsb
        val_eqb String.eqb Ascii.eqb Bool.eqb orb] in R.
      destruct R as [Hrr [_ Hlog]]. split; [exact Hrr|].
      rewrite Hlog. unfold restart_warning, applied, writes.
      rewrite Hctx. cbn [val_eqb String.eqb Ascii.eqb Bool.eqb app].
      unfold alter_query.
      repeat match goal with
             | |- context [if ?b then _ else _] => destruct b
             end;
        cbn [app In closes];
        intuition (try discriminate).
Qed.

(** X24.  Outside check mode, a reset of a parameter that is at its boot
    value stops right after the read: no statement is executed, and the
    result has no [changed], which the caller reads as false. *)
Lemma reset_noop_stops (p : Params) (w w1 w2 w' : World env)
    (r : conn_params * option string) (res : Info) (kw : Kw) :
  prologue p w = Ret r w1 ->
  param_get (p_name p) w1 = Ret res w2 ->
  p_check_mode p = false ->
  reset_noop p res = true ->
  main p w = ExitJson kw w' ->
  w' = w2 /\ kw_changed kw = None /\ reported_changed kw = false /\
  kw_value kw = Some (raw_val res, unit_ res).
Proof.
  intros Hpro Hget Hmode Hnoop H.
  pose proof (execute_mode_run p w w1 w2 w' r res kw Hpro Hget Hmode H) as R.
  rewrite Hnoop in R. destruct R as [-> ->]. repeat split.
Qed.



End Claims.


(** C1, as stated, fails: the desired ["1024MB"] is not the display
    value ["1GB"] but is the same number of bytes; the statement is
    executed, the raw value read again is the one read before, and the
    result has [changed = false]. *)
Lemma same_size_applied_unchanged :
  pretty_to_bytes (PStr "1024MB") = pretty_to_bytes (PStr "1GB") /\
  In (EvExecute "ALTER SYSTEM SET maintenance_work_mem = '1024MB'" None)
     (log_of Scenario.same_size) /\
  option_map kw_prev_val_pretty (result_of Scenario.same_size)
  = Some (Some (PStr "1GB")) /\
  option_map reported_changed (result_of Scenario.same_size) = Some false.
Proof.
  split; [reflexivity|]. split; [vm_compute; tauto|].
  split; reflexivity.
Qed.

(** C3, as stated, fails: with the desired value equal to the display
    value no statement is issued, and the parameter is still read a
    second time over a new connection. *)
Lemma reread_without_apply :
  log_of Scenario.same_literal
  = [EvConnClose; EvCursorClose;
     EvExecute "SHOW work_mem" None;
     EvExecute select_query (Some "work_mem");
     EvConnect;
     EvConnClose; EvCursorClose;
     EvExecute "SHOW work_mem" None;
     EvExecute select_query (Some "work_mem");
     EvConnect] /\
  option_map kw_changed (result_of Scenario.same_literal) = Some (Some false).
Proof. split; reflexivity. Qed.

(** C4: the code at the failing input.  A reset of a [postmaster]
    parameter that is at its boot value ends the run with
    [restart_required = false]; the same request in check mode, and
    every other exit, reports [true]. *)
Theorem reset_noop_postmaster_restart_flag :
  option_map kw_context (result_of (Scenario.reset_postmaster false))
  = Some (Some (PStr "postmaster")) /\
  option_map kw_restart_required (result_of (Scenario.reset_postmaster false))
  = Some (Some false) /\
  option_map kw_restart_required (result_of (Scenario.reset_postmaster true))
  = Some (Some true).
Proof. repeat split; reflexivity. Qed.

(** C5: the code at the failing input.  A reset of a parameter that is
    at its boot value: outside check mode the run stops without a
    statement and without [changed] in its result; in check mode the
    same request is answered with [changed = true]. *)
Theorem check_mode_reset_reports_changed :
  log_of (Scenario.reset_at_boot false)
  = reads "work_mem" ++ [EvConnect] /\
  option_map reported_changed (result_of (Scenario.reset_at_boot false))
  = Some false /\
  option_map reported_changed (result_of (Scenario.reset_at_boot true))
  = Some true /\
  log_of (Scenario.reset_at_boot true) = reads "work_mem" ++ [EvConnect].
Proof. repeat split; reflexivity. Qed.

(** C9, as stated, fails: a setting of -1 in a unit of kB is returned
    as the string it was, not as -1024. *)
Lemma negative_setting_unscaled :
  match param_get "temp_file_limit" (Mock.start Mock.temp_file_limit) with
  | Ret res _ =>
      unit_ res = PStr "b" /\ raw_val res = PStr "-1" /\
      raw_val res <> PInt (-1 * 1024)
  | _ => False
  end.
Proof. vm_compute. repeat split; discriminate. Qed.

(** C10: the code at the failing input.  ["127.0.0.1"] starts with a
    digit and does not end in a letter; neither [int] nor [float]
    reads it, and the [ValueError] of [float] leaves [pretty_to_bytes]
    and [main]. *)
Theorem dotted_value_raises :
  int_of_string "127.0.0.1" = Raised ValueError /\
  float_of_string "127.0.0.1" = Raised ValueError /\
  pretty_to_bytes (PStr "127.0.0.1") = Raised ValueError /\
  exists w, Scenario.dotted_address = Raise ValueError w.
Proof.
  repeat split; try reflexivity. eexists. vm_compute. reflexivity.
Qed.

(** The specification's scenarios A and E, and a leading number written
    with a superscript digit, which [isdigit] accepts and [int] does
    not. *)
Lemma scenario_A :
  option_map kw_changed (result_of Scenario.shorthand) = Some (Some true) /\
  option_map kw_value_pretty (result_of Scenario.shorthand)
  = Some (Some (PStr "32MB")) /\
  option_map kw_restart_required (result_of Scenario.shorthand)
  = Some (Some false) /\
  In (EvExecute "ALTER SYSTEM SET work_mem = '32MB'" None)
     (log_of Scenario.shorthand).
Proof. repeat split; try reflexivity. vm_compute. tauto. Qed.

Lemma scenario_E :
  result_of Scenario.old_version = Some (old_version_kw "work_mem") /\
  log_of Scenario.old_version
  = [EvConnClose;
     EvWarn "PostgreSQL is 90300 version but 90400 or later is required";
     EvConnect].
Proof. split; reflexivity. Qed.

Lemma superscript_digit_raises :
  pretty_to_bytes (PStr (String "1" (String (ascii_of_nat 178) "kB")))
  = Raised ValueError.
Proof. reflexivity. Qed.


Lemma internal_context_fails_witness :
  exists w2,
    main (Mock.request "block_size" (Some "16384") false false)
         (Mock.start Mock.block_size)
    = FailJson (internal_msg "block_size") w2 /\
    w_log w2 = reads "block_size" ++ [EvConnect].
Proof.
  eexists.
  eapply (internal_context_fails (E := Mock.engine)
            (Mock.request "block_size" (Some "16384") false false)
            (Mock.start Mock.block_size)); vm_compute; reflexivity.
Defined.

Lemma literal_mismatch_applies_witness :
  exists kw w',
    main (Mock.request "shared_buffers" (Some "256MB") false false)
         (Mock.start Mock.shared_buffers) = ExitJson kw w' /\
    In (EvExecute "ALTER SYSTEM SET shared_buffers = '256MB'" None) (w_log w') /\
    kw_changed kw = Some true.
Proof.
  do 2 eexists. split; [vm_compute; reflexivity|].
  edestruct (literal_mismatch_applies (E := Mock.engine)
               (Mock.request "shared_buffers" (Some "256MB") false false)
               (Mock.start Mock.shared_buffers))
    as (Hin & Hpost & _);
    [vm_compute; reflexivity | vm_compute; reflexivity | reflexivity
    | vm_compute; reflexivity | | vm_compute; reflexivity | ].
  - discriminate.
  - split; [exact Hin | apply Hpost; reflexivity].
Defined.

Lemma reread_decides_changed_witness :
  exists kw w',
    main (Mock.request "work_mem" (Some "32mb") false false)
         (Mock.start Mock.work_mem) = ExitJson kw w' /\
    fetches (w_log w') = 2%nat /\
    kw_changed kw = Some true /\
    kw_value kw = Some (PInt (32768 * 1024), PStr "b").
Proof.
  do 2 eexists. split; [vm_compute; reflexivity|].
  edestruct (reread_decides_changed (E := Mock.engine)
               (Mock.request "work_mem" (Some "32mb") false false)
               (Mock.start Mock.work_mem))
    as (Hcount & Hre);
    [vm_compute; reflexivity | vm_compute; reflexivity
    | vm_compute; reflexivity | ].
  split; [exact Hcount|].
  destruct (Hre eq_refl) as (w3 & res' & w4 & _ & _ & _ & Hch & Hval).
  injection Hval as Hraw. rewrite <- Hraw in Hch.
  split; [exact Hch | reflexivity].
Defined.

Lemma param_get_byte_units_witness :
  exists res w',
    param_get "work_mem" (Mock.start Mock.work_mem) = Ret res w' /\
    unit_ res = PStr "b" /\
    raw_val res = PInt (4096 * 1024) /\
    boot_val res = PInt (4096 * 1024).
Proof.
  do 2 eexists. split; [vm_compute; reflexivity|].
  edestruct (param_get_byte_units (E := Mock.engine) "work_mem" (Mock.start Mock.work_mem))
    as (e1 & row & rows & Hex & Hf); [vm_compute; reflexivity|].
  vm_compute in Hex. injection Hex as _ <- _.
  destruct (Hf 1024 (or_introl (conj eq_refl eq_refl)))
    as (Hu & setting & boot & n & b & Hs & Hb & Hn & Hbn & Hr & Hbv).
  vm_compute in Hs, Hb. injection Hs as <-. injection Hb as <-.
  vm_compute in Hn, Hbn. injection Hn as <-. injection Hbn as <-.
  split; [exact Hu | split; [exact Hr | exact Hbv]].
Defined.

(** ** Further properties of the value normalizer *)

Section Normalizer.

Ltac by_char c :=
  destruct c as [[] [] [] [] [] [] [] []]; vm_compute; intuition congruence.

Lemma decimal_not_alpha c : is_decimal c = true -> isalpha_char c = false.
Proof. by_char c. Qed.

Lemma isdigit_not_space c : isdigit_char c = true -> is_space c = false.
Proof. by_char c. Qed.

Lemma isdigit_not_sign c :
  isdigit_char c = true -> is_minus c = false /\ is_plus c = false.
Proof. by_char c. Qed.

Lemma isdigit_upper c : isdigit_char c = true -> upper_char c = c.
Proof. by_char c. Qed.

Lemma upper_char_not_b c : upper_char c <> "b"%char.
Proof. by_char c. Qed.

Lemma decimal_digit_value c : is_decimal c = true -> 0 <= digit_value c.
Proof. by_char c. Qed.

(** A string with a last character is what precedes it and that
    character. *)
Lemma last_char_inv s c :
  last_char s = Some c -> exists x, s = (x ++ String c "")%string.
Proof.
  unfold last_char. induction s as [|a s IH]; simpl; [discriminate|].
  destruct s as [|b s].
  - simpl. intros H. injection H as ->. now exists "".
  - intros H. destruct (IH H) as [x Hx]. exists (String a x).
    simpl. now rewrite <- Hx.
Qed.

Lemma last_char_some s : s <> "" -> exists c, last_char s = Some c.
Proof.
  unfold last_char. induction s as [|a s IH]; [congruence|]. intros _.
  destruct s as [|b s]; [now exists a|].
  destruct IH as [c Hc]; [discriminate|]. exists c. exact Hc.
Qed.

Lemma slice_last_1 s c : last_char s = Some c -> slice_last 1 s = String c "".
Proof.
  intros H. destruct (last_char_inv s c H) as [x ->].
  apply (slice_last_app x (String c "")).
Qed.

(** The last two characters end with the last one. *)
Lemma slice_last_2 s c :
  last_char s = Some c ->
  slice_last 2 s = String c "" \/ exists a, slice_last 2 s = String a (String c "").
Proof.
  intros H. destruct (last_char_inv s c H) as [x ->].
  destruct x as [|b x].
  - left. reflexivity.
  - right. destruct (last_char_some (String b x)) as [a Ha]; [discriminate|].
    destruct (last_char_inv _ _ Ha) as [y Hy]. rewrite Hy. exists a.
    rewrite append_assoc. apply (slice_last_app y (String a (String c ""))).
Qed.

Lemma str_in_2_last (sub : string) s c a b :
  sub = String a (String b "") -> last_char s = Some c -> b <> c ->
  str_in sub (slice_last 2 s) = false.
Proof.
  intros -> Hc Hbc. destruct (slice_last_2 s c Hc) as [-> | [x ->]].
  - apply str_in_longer. simpl. lia.
  - rewrite str_in_same_length by reflexivity. simpl.
    apply Ascii.eqb_neq in Hbc. rewrite Hbc. apply andb_false_r.
Qed.

Lemma str_in_1_last b s c :
  last_char s = Some c -> b <> c ->
  str_in (String b "") (slice_last 1 s) = false.
Proof.
  intros Hc Hbc. rewrite (slice_last_1 s c Hc).
  rewrite str_in_same_length by reflexivity. simpl.
  apply Ascii.eqb_neq in Hbc. now rewrite Hbc.
Qed.

(** Without a final [B] no unit is recognised. *)
Lemma val_in_bytes_of_none s c n :
  last_char s = Some c -> c <> "B"%char -> val_in_bytes_of s n = None.
Proof.
  intros Hc HB. unfold val_in_bytes_of.
  assert (HB' : "B"%char <> c) by congruence.
  rewrite !(str_in_2_last _ s c _ "B"%char eq_refl Hc HB').
  rewrite (str_in_1_last "B"%char s c Hc HB').
  destruct (2 <=? String.length s)%nat; reflexivity.
Qed.

Lemma Z_of_digits_acc_nonneg ds acc :
  forallb is_decimal ds = true -> 0 <= acc ->
  0 <= fold_left (fun a c => 10 * a + digit_value c) ds acc.
Proof.
  revert acc. induction ds as [|c ds IH]; cbn [fold_left forallb]; [auto|].
  intros acc H Hacc. apply andb_prop in H as [Hc Hds].
  apply IH; [exact Hds|]. pose proof (decimal_digit_value c Hc). lia.
Qed.

Lemma Z_of_digits_nonneg ds : forallb is_decimal ds = true -> 0 <= Z_of_digits ds.
Proof. intros H. apply Z_of_digits_acc_nonneg; [exact H | lia]. Qed.

Lemma scan_digits_decimals n l ds r :
  (List.length l <= n)%nat -> scan_digits l = (ds, r) ->
  forallb is_decimal ds = true.
Proof.
  revert l ds r. induction n as [|n IH]; intros l ds r Hlen H.
  - destruct l; [|simpl in Hlen; lia]. simpl in H. now injection H as <- _.
  - destruct l as [|c l]; [simpl in H; now injection H as <- _|].
    simpl in Hlen. cbn [scan_digits] in H.
    destruct (is_decimal c) eqn:Hc.
    + destruct (scan_digits l) as [ds' r'] eqn:Hs. injection H as <- _.
      simpl. rewrite Hc. eapply IH; [|exact Hs]. lia.
    + destruct (is_underscore c); [|now injection H as <- _].
      destruct l as [|c' l']; [now injection H as <- _|].
      destruct (is_decimal c') eqn:Hc'; [|now injection H as <- _].
      destruct (scan_digits l') as [ds' r'] eqn:Hs. injection H as <- _.
      simpl. rewrite Hc'. eapply IH; [|exact Hs]. simpl in Hlen. lia.
Qed.

Lemma digitpart_decimals l ds :
  digitpart l = Some ds -> forallb is_decimal ds = true.
Proof.
  unfold digitpart. destruct l as [|c l]; [discriminate|].
  destruct (is_decimal c) eqn:Hc; [|discriminate].
  destruct (scan_digits l) as [ds' [|x r]] eqn:Hs; [|discriminate].
  intros H. injection H as <-. simpl. rewrite Hc.
  eapply scan_digits_decimals; [apply Nat.le_refl | exact Hs].
Qed.

Lemma drop_space_keeps_last a c :
  is_space c = false -> exists a', drop_space (a ++ [c]) = a' ++ [c].
Proof.
  intros Hc. induction a as [|x a IH]; simpl.
  - rewrite Hc. now exists [].
  - destruct (is_space x); [exact IH | now exists (x :: a)].
Qed.

(** What starts with a digit character and is read by [int] is not
    negative. *)
Lemma int_of_string_nonneg s c z :
  first_char s = Some c -> isdigit_char c = true ->
  int_of_string s = Ok z -> 0 <= z.
Proof.
  intros Hf Hc. destruct s as [|c' t]; [discriminate|].
  injection Hf as ->. unfold int_of_string, strip.
  cbn [list_ascii_of_string drop_space].
  rewrite (isdigit_not_space c Hc). cbn [rev].
  destruct (drop_space_keeps_last (rev (list_ascii_of_string t)) c
              (isdigit_not_space c Hc)) as [a' ->].
  rewrite rev_app_distr. cbn [rev app read_sign].
  destruct (isdigit_not_sign c Hc) as [-> ->].
  destruct (digitpart _) as [ds|] eqn:Hd; [|discriminate].
  destruct (_ <? _)%nat; [discriminate|].
  intros H. injection H as <-.
  apply Z_of_digits_nonneg. eapply digitpart_decimals. exact Hd.
Qed.

Lemma val_in_bytes_of_nonneg s n v :
  0 <= n -> val_in_bytes_of s n = Some v -> 0 <= v.
Proof.
  intros Hn. unfold val_in_bytes_of.
  repeat match goal with
         | |- context [if ?b then _ else _] => destruct b
         | |- context [match ?x with _ => _ end] => destruct x
         end;
    intros H; try discriminate; injection H as <-; lia.
Qed.

(** X1.  [pretty_to_bytes] never turns its argument into another
    string: a result that is a string is the argument itself. *)
Theorem pretty_to_bytes_keeps_strings (v : Val) (s : string) :
  pretty_to_bytes v = Ok (OVal (PStr s)) -> v = PStr s.
Proof.
  intros H. unfold pretty_to_bytes in H. run_inv H.
  all: tidy; congruence.
Qed.

(** X2.  A literal made of a run of decimal digits and a rest that
    ends in a letter other than [B] - a time unit, a lower-case size
    suffix - is returned as the string it is. *)
Theorem pretty_to_bytes_other_units (digits rest : string) (c : ascii) :
  isdecimal digits = true ->
  (String.length digits <= int_max_str_digits)%nat ->
  num_part_of rest = "" ->
  last_char (digits ++ rest) = Some c ->
  isalpha_char c = true ->
  c <> "B"%char ->
  pretty_to_bytes (PStr (digits ++ rest)) = Ok (OVal (PStr (digits ++ rest))).
Proof.
  intros Hd Hlen Hrest Hlast Halpha HB.
  rewrite (pretty_to_bytes_digits digits rest c Hd Hlen Hrest Hlast Halpha).
  now rewrite (val_in_bytes_of_none _ c _ Hlast HB).
Qed.

(** X3.  A literal made of decimal digits only is read as the integer
    it writes, leading zeros included. *)
Theorem pretty_to_bytes_integer (digits : string) :
  isdecimal digits = true ->
  (String.length digits <= int_max_str_digits)%nat ->
  pretty_to_bytes (PStr digits)
  = Ok (OVal (PInt (Z_of_digits (list_ascii_of_string digits)))).
Proof.
  intros Hd Hlen. destruct digits as [|c d]; [discriminate|].
  unfold isdecimal in Hd.
  assert (Hc : is_decimal c = true)
    by (simpl in Hd; now apply andb_prop in Hd as [? _]).
  destruct (last_char_some (String c d)) as [cl Hcl]; [discriminate|].
  assert (Hdl : is_decimal cl = true).
  { destruct (last_char_inv _ _ Hcl) as [x Hx]. rewrite Hx in Hd.
    rewrite list_of_append, forallb_app in Hd.
    apply andb_prop in Hd as [_ Hd]. simpl in Hd.
    now rewrite andb_true_r in Hd. }
  unfold pretty_to_bytes.
  change (truthy (PStr (String c d))) with true.
  cbn [negb first_char]. rewrite Hcl, (decimal_isdigit c Hc).
  rewrite (decimal_not_alpha cl Hdl). cbn [negb].
  rewrite <- (string_of_list_ascii_of_string (String c d)) at 1.
  rewrite int_of_string_decimal; [reflexivity | discriminate | exact Hd |].
  now rewrite length_list_of.
Qed.

(** X4.  An integer that [pretty_to_bytes] returns for a string is
    never negative: a literal with a sign is not read at all. *)
Theorem pretty_to_bytes_nonneg (s : string) (v : Z) :
  pretty_to_bytes (PStr s) = Ok (OVal (PInt v)) -> 0 <= v.
Proof.
  unfold pretty_to_bytes. destruct (negb (truthy (PStr s))); [discriminate|].
  destruct (first_char s) as [c0|] eqn:Hf; [|destruct (last_char s); discriminate].
  destruct (last_char s) as [cl|]; [|discriminate].
  destruct (isdigit_char c0) eqn:Hc0; cbn [negb]; [|discriminate].
  destruct (isalpha_char cl); cbn [negb].
  - assert (Hfn : first_char (num_part_of s) = Some c0).
    { destruct s as [|a t]; [discriminate|]. injection Hf as ->.
      unfold num_part_of. cbn [list_ascii_of_string leading_digits].
      now rewrite Hc0. }
    destruct (int_of_string (num_part_of s)) as [n|] eqn:Hn; [|discriminate].
    pose proof (int_of_string_nonneg _ _ _ Hfn Hc0 Hn) as Hpos.
    destruct (val_in_bytes_of s n) as [v'|] eqn:Hv; [|discriminate].
    intros H. injection H as <-. eapply val_in_bytes_of_nonneg; eassumption.
  - destruct (int_of_string s) as [z|[]] eqn:Hz; try discriminate.
    + intros H. injection H as <-. eapply int_of_string_nonneg; eassumption.
    + destruct (float_of_string s); discriminate.
Qed.

End Normalizer.

(** ** Further properties of the shorthand rewrite *)

Section Shorthand.

Ltac by_char c :=
  destruct c as [[] [] [] [] [] [] [] []]; vm_compute; intuition congruence.

Lemma slice_but_last_app (x suf : string) :
  slice_but_last (String.length suf) (x ++ suf) = x.
Proof.
  unfold slice_but_last. rewrite list_of_append, length_app, !length_list_of.
  replace (String.length x + String.length suf - String.length suf)%nat
    with (List.length (list_ascii_of_string x) + 0)%nat
    by (rewrite length_list_of; lia).
  rewrite firstn_app_2. cbn [firstn]. rewrite app_nil_r.
  apply string_of_list_ascii_of_string.
Qed.

Lemma string_of_list_app (a b : list ascii) :
  string_of_list_ascii (a ++ b)
  = (string_of_list_ascii a ++ string_of_list_ascii b)%string.
Proof. induction a as [|c a IH]; simpl; [reflexivity | now rewrite IH]. Qed.

Lemma upper_append (a b : string) : upper (a ++ b) = (upper a ++ upper b)%string.
Proof.
  unfold upper. now rewrite list_of_append, map_app, string_of_list_app.
Qed.

Lemma upper_isdigit s : isdigit s = true -> upper s = s.
Proof.
  unfold isdigit, upper. destruct s as [|c s]; [discriminate|].
  intros H. rewrite <- (string_of_list_ascii_of_string (String c s)) at 2.
  f_equal. revert H. generalize (list_ascii_of_string (String c s)).
  induction l as [|x l IH]; simpl; [reflexivity|].
  intros H. apply andb_prop in H as [Hx Hl].
  now rewrite (isdigit_upper x Hx), (IH Hl).
Qed.

Lemma last_char_in s c : last_char s = Some c -> In c (list_ascii_of_string s).
Proof.
  intros H. destruct (last_char_inv s c H) as [x ->].
  rewrite list_of_append. apply in_or_app. right. left. reflexivity.
Qed.

(** What [upper] returns never ends in a lower-case b. *)
Lemma last_char_upper s : last_char (upper s) <> Some "b"%char.
Proof.
  intros H. apply last_char_in in H. unfold upper in H.
  rewrite list_ascii_of_string_of_list_ascii in H.
  apply in_map_iff in H as [c [Hc _]]. now apply upper_char_not_b in Hc.
Qed.

Lemma in_units_last_b a c :
  in_tuple (String a (String c "")) LOWERCASE_SIZE_UNITS = true -> c = "b"%char.
Proof.
  unfold in_tuple, LOWERCASE_SIZE_UNITS. cbn [existsb String.eqb].
  destruct (Ascii.eqb_spec c "b"); [auto|].
  destruct (a =? "m")%char, (a =? "g")%char, (a =? "t")%char; discriminate.
Qed.

Lemma units_need_b v :
  (2 <? String.length v)%nat = true ->
  in_tuple (slice_last 2 v) LOWERCASE_SIZE_UNITS = true ->
  last_char v = Some "b"%char.
Proof.
  intros Hlen Hin. destruct (last_char_some v) as [c Hc].
  { destruct v; [discriminate | discriminate]. }
  destruct (slice_last_2 v c Hc) as [H | [a H]]; rewrite H in Hin.
  - exfalso. revert Hin. unfold in_tuple, LOWERCASE_SIZE_UNITS.
    cbn [existsb String.eqb].
    destruct (c =? "m")%char, (c =? "g")%char, (c =? "t")%char; discriminate.
  - apply in_units_last_b in Hin. now subst.
Qed.

Lemma suffix_b_need_b v :
  (1 <? String.length v)%nat = true ->
  str_in "b" (slice_last 1 v) = true ->
  last_char v = Some "b"%char.
Proof.
  intros Hlen Hin. destruct (last_char_some v) as [c Hc].
  { destruct v; discriminate. }
  destruct (ascii_dec "b" c) as [<- | Hne]; [exact Hc|].
  now rewrite (str_in_1_last "b"%char v c Hc Hne) in Hin.
Qed.

Lemma canonicalize_shorthand_cases v :
  canonicalize_shorthand (Some v) = Some v \/
  (canonicalize_shorthand (Some v) = Some (upper v) /\
   last_char v = Some "b"%char).
Proof.
  unfold canonicalize_shorthand. destruct (truthy (PStr v)); [|now left].
  destruct ((2 <? String.length v)%nat) eqn:H2; cbn [andb].
  - destruct (isdigit (slice_but_last 2 v)); cbn [andb].
    + destruct (in_tuple (slice_last 2 v) LOWERCASE_SIZE_UNITS) eqn:Hin.
      * right. split; [reflexivity | now apply units_need_b].
      * destruct ((1 <? String.length v)%nat) eqn:H1; cbn [andb]; [|now left].
        destruct (str_in "b" (slice_last 1 v)) eqn:Hb; cbn [andb]; [|now left].
        destruct (isdigit (slice_but_last 1 v)); [|now left].
        right. split; [reflexivity | now apply suffix_b_need_b].
    + destruct ((1 <? String.length v)%nat) eqn:H1; cbn [andb]; [|now left].
      destruct (str_in "b" (slice_last 1 v)) eqn:Hb; cbn [andb]; [|now left].
      destruct (isdigit (slice_but_last 1 v)); [|now left].
      right. split; [reflexivity | now apply suffix_b_need_b].
  - destruct ((1 <? String.length v)%nat) eqn:H1; cbn [andb]; [|now left].
    destruct (str_in "b" (slice_last 1 v)) eqn:Hb; cbn [andb]; [|now left].
    destruct (isdigit (slice_but_last 1 v)); [|now left].
    right. split; [reflexivity | now apply suffix_b_need_b].
Qed.

(** The branch of line 366: digits and a final [b]. *)
Lemma canonicalize_shorthand_one (digits : string) :
  isdigit digits = true ->
  canonicalize_shorthand (Some (digits ++ "b")%string)
  = Some (upper (digits ++ "b")).
Proof.
  intros Hd.
  assert (Hne : exists c d, digits = String c d)
    by (destruct digits as [|c d]; [discriminate | eauto]).
  destruct Hne as (c & d & Hcd).
  unfold canonicalize_shorthand.
  assert (H1 : (1 <? String.length (digits ++ "b"))%nat = true)
    by (apply Nat.ltb_lt; rewrite length_append, Hcd; simpl; lia).
  assert (Hs : slice_last 1 (digits ++ "b") = "b")
    by apply (slice_last_app digits "b").
  assert (Hb : slice_but_last 1 (digits ++ "b") = digits)
    by apply (slice_but_last_app digits "b").
  rewrite H1, Hs, Hb, Hd.
  rewrite str_in_same_length by reflexivity.
  change (("b" =? "b")%string) with true. cbn [andb].
  replace (truthy (PStr (digits ++ "b"))) with true
    by (rewrite Hcd; reflexivity).
  now destruct (_ && _ && _).
Qed.

(** The branch of line 362: digits and one of [mb], [gb], [tb]. *)
Lemma canonicalize_shorthand_two (digits u : string) :
  isdigit digits = true ->
  in_tuple u LOWERCASE_SIZE_UNITS = true ->
  canonicalize_shorthand (Some (digits ++ u)%string)
  = Some (upper (digits ++ u)).
Proof.
  intros Hd Hu.
  assert (Hne : exists c d, digits = String c d)
    by (destruct digits as [|c d]; [discriminate | eauto]).
  destruct Hne as (c & d & Hcd).
  assert (Hlen : String.length u = 2%nat).
  { unfold in_tuple, LOWERCASE_SIZE_UNITS in Hu. cbn [existsb] in Hu.
    repeat (apply orb_prop in Hu as [Hu | Hu]); try discriminate;
      apply String.eqb_eq in Hu; subst u; reflexivity. }
  destruct u as [|a [|b [|? ?]]]; try discriminate Hlen.
  unfold canonicalize_shorthand.
  assert (H2 : (2 <? String.length (digits ++ String a (String b "")))%nat
               = true)
    by (apply Nat.ltb_lt; rewrite length_append, Hcd; simpl; lia).
  rewrite H2,
    (slice_last_app digits (String a (String b "")) : slice_last 2 _ = _),
    (slice_but_last_app digits (String a (String b ""))
     : slice_but_last 2 _ = _), Hd, Hu.
  replace (truthy (PStr (digits ++ String a (String b "")))) with true
    by (rewrite Hcd; reflexivity).
  reflexivity.
Qed.

(** X5.  A run of digit characters followed by [b], [mb], [gb] or [tb]
    is rewritten with the suffix in upper case, the digits unchanged. *)
Theorem canonicalize_shorthand_units (digits u : string) :
  isdigit digits = true ->
  in_tuple u ("b" :: LOWERCASE_SIZE_UNITS) = true ->
  canonicalize_shorthand (Some (digits ++ u)%string)
  = Some (digits ++ upper u)%string.
Proof.
  intros Hd Hu.
  rewrite <- (upper_isdigit digits Hd) at 2. rewrite <- upper_append.
  unfold in_tuple in Hu. cbn [existsb] in Hu.
  apply orb_prop in Hu as [Hu | Hu].
  - apply String.eqb_eq in Hu. subst u.
    now apply canonicalize_shorthand_one.
  - now apply canonicalize_shorthand_two.
Qed.

(** X6.  Rewriting twice is rewriting once. *)
Theorem canonicalize_shorthand_idempotent (value : option string) :
  canonicalize_shorthand (canonicalize_shorthand value)
  = canonicalize_shorthand value.
Proof.
  destruct value as [v|]; [|reflexivity].
  destruct (canonicalize_shorthand_cases v) as [H | [H _]]; rewrite H.
  - exact H.
  - destruct (canonicalize_shorthand_cases (upper v)) as [H' | [_ H']];
      [exact H' | now apply last_char_upper in H'].
Qed.


End Shorthand.

Section ShorthandBytes.

Ltac by_char c :=
  destruct c as [[] [] [] [] [] [] [] []]; vm_compute; intuition congruence.

Lemma decimal_not_bool c :
  is_decimal c = true -> (c =? "T")%char = false /\ (c =? "F")%char = false.
Proof. by_char c. Qed.

Lemma decimal_before_B c :
  is_decimal c = true ->
  in_tuple (String c "B") ["kB"; "MB"; "GB"; "TB"] = false.
Proof. by_char c. Qed.

Lemma decimal_literal_not_bool c (d rest : string) :
  is_decimal c = true ->
  normalize_boolean (PStr (String c d ++ rest)) = PStr (String c d ++ rest).
Proof.
  intros Hc. destruct (decimal_not_bool c Hc) as [HT HF].
  unfold normalize_boolean. cbn [val_eqb append String.eqb].
  now rewrite HT, HF.
Qed.

(** X8.  The rewrite makes the shorthand readable: a number written
    with [b], [mb], [gb] or [tb] is, once rewritten, read as that many
    bytes, while the same literal as typed is returned as a string. *)
Theorem shorthand_then_bytes (digits : string) :
  isdecimal digits = true ->
  (String.length digits <= int_max_str_digits)%nat ->
  let n := Z_of_digits (list_ascii_of_string digits) in
  let read u := pretty_to_bytes
                  (desired (canonicalize_shorthand (Some (digits ++ u)%string))) in
  read "b" = Ok (OVal (PInt n)) /\
  read "mb" = Ok (OVal (PInt (n * 1024 ^ 2))) /\
  read "gb" = Ok (OVal (PInt (n * 1024 ^ 3))) /\
  read "tb" = Ok (OVal (PInt (n * 1024 ^ 4))) /\
  pretty_to_bytes (PStr (digits ++ "mb"))
  = Ok (OVal (PStr (digits ++ "mb"))).
Proof.
  intros Hd Hlen n read. subst read. cbv beta.
  assert (Hdig : isdigit digits = true).
  { unfold isdecimal in Hd. unfold isdigit.
    destruct digits as [|c d]; [discriminate|].
    rewrite forallb_forall in *. intros x Hx. apply decimal_isdigit. auto. }
  assert (Hne : exists c d, digits = String c d)
    by (destruct digits as [|c d]; [discriminate | eauto]).
  destruct Hne as (c & d & Hcd).
  assert (Hc : is_decimal c = true).
  { unfold isdecimal in Hd. rewrite Hcd in Hd. simpl in Hd.
    now apply andb_prop in Hd as [? _]. }
  assert (Hread : forall a, isalpha_char a = true -> isdigit_char a = false ->
            pretty_to_bytes (PStr (digits ++ String a "B"))
            = Ok (OVal (match val_in_bytes_of (digits ++ String a "B") n with
                        | Some v => PInt v
                        | None => PStr (digits ++ String a "B")
                        end))).
  { intros a Ha Hna.
    apply (pretty_to_bytes_digits digits (String a "B") "B" Hd Hlen).
    - unfold num_part_of. simpl. now rewrite Hna.
    - change (String a "B") with (String a "" ++ "B")%string.
      rewrite <- append_assoc. apply last_char_app.
    - reflexivity. }
  destruct (val_in_bytes_of_suffix digits n) as (_ & HM & HG & HT).
  unfold desired.
  rewrite (canonicalize_shorthand_one digits Hdig).
  rewrite !canonicalize_shorthand_two by (exact Hdig || reflexivity).
  rewrite !upper_append, (upper_isdigit digits Hdig).
  change (upper "b") with "B". change (upper "mb") with "MB".
  change (upper "gb") with "GB". change (upper "tb") with "TB".
  cbn [of_option].
  assert (Hnb : forall rest, normalize_boolean (PStr (digits ++ rest))
                             = PStr (digits ++ rest))
    by (intros rest; rewrite Hcd; now apply decimal_literal_not_bool).
  rewrite !Hnb.
  repeat split.
  - rewrite (pretty_to_bytes_digits digits "B" "B" Hd Hlen eq_refl
               (last_char_app digits "B") eq_refl).
    rewrite (val_in_bytes_of_B _ n).
    + f_equal. f_equal. f_equal. lia.
    + rewrite length_append, Hcd. simpl. lia.
    + apply (slice_last_app digits "B").
    + destruct (last_char_some digits) as [a Ha]; [now rewrite Hcd|].
      destruct (last_char_inv _ _ Ha) as [y Hy].
      assert (Hda : is_decimal a = true).
      { unfold isdecimal in Hd. rewrite Hcd in Hd. rewrite <- Hcd in Hd.
        rewrite forallb_forall in Hd. apply Hd. now apply last_char_in. }
      rewrite Hy, append_assoc.
      change (String a "" ++ "B")%string with (String a "B").
      rewrite (slice_last_app y (String a "B") : slice_last 2 _ = _).
      now apply decimal_before_B.
  - rewrite Hread by reflexivity. now rewrite HM.
  - rewrite Hread by reflexivity. now rewrite HG.
  - rewrite Hread by reflexivity. now rewrite HT.
  - assert (Hlast : last_char (digits ++ "mb") = Some "b"%char).
    { change "mb" with ("m" ++ "b")%string.
      rewrite <- append_assoc. apply last_char_app. }
    rewrite (pretty_to_bytes_digits digits "mb" "b" Hd Hlen eq_refl Hlast
               eq_refl).
    now rewrite (val_in_bytes_of_none _ "b" _ Hlast) by discriminate.
Qed.

End ShorthandBytes.

(** ** Further properties of [param_get] and [param_set] *)

Section Fetch.

Context {env : Type} {E : Engine env}.

Lemma normalize_boolean_not_bool v :
  normalize_boolean v <> PStr "True" /\ normalize_boolean v <> PStr "False".
Proof.
  unfold normalize_boolean.
  destruct (val_eqb v (PStr "True")) eqn:HT; [split; discriminate|].
  destruct (val_eqb v (PStr "False")) eqn:HF; [split; discriminate|].
  split; now apply val_eqb_neq.
Qed.

(** Where the display value of a [param_get] that returns comes from. *)
Lemma param_get_shown name w res w' :
  param_get name w = Ret res w' ->
  exists e1 rows1 e2 vrow rows2 v,
    execute select_query (Some name) (w_env w) = inr (e1, rows1) /\
    execute (show_query name) None e1 = inr (e2, vrow :: rows2) /\
    lookup name vrow = Some v /\
    current_val res = normalize_boolean (of_option v).
Proof.
  unfold param_get, bind, try_except, cursor_execute, fetchone, lift_exc,
    getitem, ret, raise, fail_json.
  intros H. cbn [w_env w_rows w_log] in H. run_inv H.
  all: tidy.
  all: match goal with
       | H1 : execute select_query _ _ = inr (?e1, ?rows1),
         H2 : execute (show_query _) _ _ = inr (?e2, ?vrow :: ?rows2),
         Hv : lookup _ ?vrow = Some ?v |- _ =>
           exists e1, rows1, e2, vrow, rows2, v
       end.
  all: repeat split; assumption || reflexivity.
Qed.

(** X9.  When the catalog has no row for the name (and [SHOW] does not
    fail), [param_get] ends the run with the "No such parameter"
    message; both queries have been executed by then. *)
Theorem param_get_unknown_parameter (name : string) (w : World env)
    (e1 e2 : env) (rows rows2 : list DictRow) :
  execute select_query (Some name) (w_env w) = inr (e1, rows) ->
  hd_error rows = None \/ hd_error rows = Some [] ->
  execute (show_query name) None e1 = inr (e2, rows2) ->
  param_get name w
  = FailJson (no_such_msg name)
      {| w_env := e2; w_rows := tl rows2; w_log := reads name ++ w_log w |}.
Proof.
  intros H1 Hrows H2.
  unfold param_get, bind, try_except, cursor_execute, fetchone, ret, fail_json.
  cbn [w_env w_rows w_log]. rewrite H1. cbn [w_env w_rows w_log].
  destruct rows as [|r rows]; cbn [w_env w_rows w_log]; rewrite H2;
    cbn [w_env w_rows w_log]; destruct rows2 as [|r2 rows2];
    cbn [fst snd tl]; try reflexivity.
  all: destruct Hrows as [Hr | Hr]; [discriminate Hr|];
       injection Hr as ->; reflexivity.
Qed.

(** X10.  An error of the driver in either query of [param_get] ends
    the run with "Unable to get <name> value due to : <error>"; an
    error of the first query keeps the second from being executed, and
    an error of [SHOW] is reported whether or not the catalog had a
    row. *)
Theorem param_get_driver_error (name msg : string) (w : World env) :
  execute select_query (Some name) (w_env w) = inl msg \/
  (exists e1 rows,
     execute select_query (Some name) (w_env w) = inr (e1, rows) /\
     execute (show_query name) None e1 = inl msg) ->
  exists w',
    param_get name w
    = FailJson ("Unable to get " ++ name ++ " value due to : " ++ msg) w' /\
    (execute select_query (Some name) (w_env w) = inl msg ->
     w_log w' = EvExecute select_query (Some name) :: w_log w) /\
    (execute select_query (Some name) (w_env w) <> inl msg ->
     w_log w' = reads name ++ w_log w).
Proof.
  intros [H1 | (e1 & rows & H1 & H2)];
    unfold param_get, bind, try_except, cursor_execute, fetchone, ret,
      fail_json;
    cbn [w_env w_rows w_log]; rewrite H1; cbn [w_env w_rows w_log].
  - eexists. split; [reflexivity|]. split; [reflexivity | congruence].
  - destruct rows as [|r rows]; cbn [w_env w_rows w_log]; rewrite H2;
      (eexists; split; [reflexivity|]; split; [discriminate | reflexivity]).
Qed.

(** X11.  For a unit other than [kB] and [MB] (pages of 8kB, a time
    unit, no unit at all) the unit, the setting and the boot value are
    returned as the catalog has them. *)
Theorem param_get_other_units (name : string) (w w' : World env) (res : Info) :
  param_get name w = Ret res w' ->
  exists e1 row rows u vs vb,
    execute select_query (Some name) (w_env w) = inr (e1, row :: rows) /\
    lookup "unit" row = Some u /\
    lookup "setting" row = Some vs /\
    lookup "boot_val" row = Some vb /\
    (u <> Some "kB" -> u <> Some "MB" ->
     unit_ res = of_option u /\
     raw_val res = of_option vs /\ boot_val res = of_option vb).
Proof.
  intros H.
  apply param_get_ret in H
    as (e1 & row & rows1 & e2 & rows2 & u & vs & vb & vc & H).
  destruct H as (Hsel & _ & _ & Hu & Hs & Hb & _ & _ & _ & _ & _ & Hother).
  exists e1, row, rows1, u, vs, vb. auto 10.
Qed.

(** X12.  The display value [param_get] returns is the value [SHOW]
    gave, with [True] and [False] replaced by [on] and [off]: it is
    never one of the driver's booleans. *)
Theorem param_get_display_value (name : string) (w w' : World env) (res : Info) :
  param_get name w = Ret res w' ->
  current_val res <> PStr "True" /\ current_val res <> PStr "False" /\
  exists e1 rows1 e2 vrow rows2 v,
    execute select_query (Some name) (w_env w) = inr (e1, rows1) /\
    execute (show_query name) None e1 = inr (e2, vrow :: rows2) /\
    lookup name vrow = Some v /\
    (v = Some "True" -> current_val res = PStr "on") /\
    (v = Some "False" -> current_val res = PStr "off") /\
    (v <> Some "True" -> v <> Some "False" -> current_val res = of_option v).
Proof.
  intros H.
  apply param_get_shown in H
    as (e1 & rows1 & e2 & vrow & rows2 & v & H1 & H2 & Hv & Hcur).
  rewrite Hcur.
  destruct (normalize_boolean_not_bool (of_option v)) as [HT HF].
  split; [exact HT|]. split; [exact HF|].
  exists e1, rows1, e2, vrow, rows2, v.
  repeat (split; [assumption|]).
  repeat split.
  - now intros ->.
  - now intros ->.
  - intros HnT HnF. unfold normalize_boolean.
    destruct (val_eqb (of_option v) (PStr "True")) eqn:H3;
      [apply val_eqb_str_true in H3; contradiction|].
    destruct (val_eqb (of_option v) (PStr "False")) eqn:H4;
      [apply val_eqb_str_true in H4; contradiction | reflexivity].
Qed.


End Fetch.

(** ** Further properties of [main] *)

Section Main.

Context {env : Type} {E : Engine env}.

(** What [prologue] does for a request that passes the input check and
    gives exactly one of [value] and [reset]. *)
Lemma prologue_forward (p : Params) (w : World env) :
  input_passes p ->
  (p_reset p = true <-> p_value p = None) ->
  ensure_required_libs (w_env w) = None ->
  prologue p w
  = match connect_to_db (get_conn_params p) (w_env w) with
    | inl msg => FailJson msg w
    | inr e1 =>
        if server_version e1 <? PG_REQ_VER then
          ExitJson (old_version_kw (p_name p))
            {| w_env := e1; w_rows := [];
               w_log := EvConnClose :: EvWarn (version_msg (server_version e1))
                        :: EvConnect :: w_log w |}
        else
          Ret (get_conn_params p, canonicalize_shorthand (p_value p))
            {| w_env := e1; w_rows := []; w_log := EvConnect :: w_log w |}
    end.
Proof.
  intros Hin Hone Hlibs.
  assert (Hpre : (if negb (p_trust_input p)
                  then match check_input (p_name p) (p_value p)
                               (p_session_role p) with
                       | Some msg => fail_json msg
                       | None => ret tt
                       end
                  else ret tt) w = Ret tt w).
  { destruct Hin as [-> | ->]; [reflexivity|].
    now destruct (negb (p_trust_input p)). }
  pose proof (canonicalize_shorthand_none (p_value p)) as Hn.
  unfold prologue, bind. rewrite Hpre.
  assert (Hv : (match canonicalize_shorthand (p_value p) with
                | Some _ => true | None => false end) = negb (p_reset p)).
  { destruct (canonicalize_shorthand (p_value p)) eqn:Hc, (p_reset p) eqn:Hr;
      try reflexivity; exfalso.
    - assert (p_value p = None) by now apply Hone. apply Hn in H. congruence.
    - assert (p_value p = None) by now apply Hn.
      apply Hone in H. congruence. }
  assert (Hv' : (match canonicalize_shorthand (p_value p) with
                 | Some _ => false | None => true end) = p_reset p).
  { destruct (canonicalize_shorthand (p_value p)); simpl in Hv;
      destruct (p_reset p); simpl in Hv; congruence. }
  rewrite Hv, Hv'.
  replace (negb (p_reset p) && p_reset p) with false
    by now destruct (p_reset p).
  replace (p_reset p && negb (p_reset p)) with false
    by now destruct (p_reset p).
  unfold ret at 1 2. rewrite Hlibs. unfold connect.
  destruct (connect_to_db (get_conn_params p) (w_env w)) as [msg | e1];
    [reflexivity|].
  cbn [w_env]. unfold emit, exit_json, ret.
  destruct (server_version e1 <? PG_REQ_VER); reflexivity.
Qed.

(** The result of a run in check mode, in full. *)
Lemma check_mode_result (p : Params) (w w1 w2 w' : World env)
    (r : conn_params * option string) (res : Info) (kw : Kw) :
  prologue p w = Ret r w1 ->
  param_get (p_name p) w1 = Ret res w2 ->
  p_check_mode p = true ->
  main p w = ExitJson kw w' ->
  exists a b,
    pretty_to_bytes (desired_of p) = Ok a /\
    pretty_to_bytes (current_val res) = Ok b /\
    kw = check_mode_kw p res (eqb a b) /\ w' = w2.
Proof.
  intros Hpro Hget Hmode H.
  unfold main, bind in H. rewrite Hpro, Hget in H.
  apply prologue_ret in Hpro as (-> & _).
  unfold reconcile, check_mode_exit, bind, lift_exc, ret, raise,
    exit_json, fail_json in H.
  rewrite Hmode in H. cbn [fst snd] in H. fold (desired_of p) in H.
  unfold check_mode_kw. run_inv H.
  all: tidy; do 2 eexists; repeat split; try eassumption.
  all: match goal with H : eqb _ _ = _ |- _ => now rewrite H end.
Qed.

(** The result of a run outside check mode, in full. *)
Lemma execute_mode_result (p : Params) (w w1 w2 w' : World env)
    (r : conn_params * option string) (res : Info) (kw : Kw) :
  prologue p w = Ret r w1 ->
  param_get (p_name p) w1 = Ret res w2 ->
  p_check_mode p = false ->
  main p w = ExitJson kw w' ->
  let postmaster := val_eqb (context res) (PStr "postmaster") in
  if reset_noop p res then
    kw = set_value (raw_val res) (unit_ res) (initial_kw (p_name p) res)
    /\ w' = w2
  else if in_recheck_contexts (context res) then
    exists w3 res' w4,
      param_get (p_name p) w3 = Ret res' w4 /\
      w_log w3 = EvConnect :: closes ++ applied p res ++ w_log w2 /\
      w_log w' = closes ++ w_log w4 /\
      kw = set_restart_required postmaster
             (set_changed (negb (val_eqb (raw_val res) (raw_val res')))
                (set_value (raw_val res') (unit_ res)
                   (set_value_pretty (current_val res')
                      (kw_after_apply p res))))
  else
    let changed := sets p res || p_reset p in
    kw = set_restart_required postmaster
           (set_changed changed (kw_after_apply p res)) /\
    w_log w' = restart_warning p res changed ++ closes ++ applied p res
               ++ w_log w2.
Proof.
  intros Hpro Hget Hmode H.
  unfold main, bind in H. rewrite Hpro, Hget in H.
  apply prologue_ret in Hpro as (-> & _).
  unfold reconcile, apply_change, recheck, close_all, emit, bind, ret,
    exit_json, fail_json in H.
  rewrite Hmode in H. cbn [fst snd] in H.
  unfold reset_noop, applied, restart_warning, kw_after_apply, sets,
    desired_of.
  pose proof (recheck_not_postmaster (context res)) as Hpm.
  run_inv H.
  all: try match goal with
       | H : param_set _ _ _ _ = ExitJson _ _ |- _ =>
           now apply param_set_no_exit in H
       | H : param_get _ _ = ExitJson _ _ |- _ =>
           now apply param_get_no_exit in H
       | H : connect _ _ = ExitJson _ _ |- _ =>
           now apply connect_no_exit in H
       end.
  all: repeat match goal with
       | H : param_set _ _ _ _ = Ret _ _ |- _ =>
           apply param_set_ret in H as [? ?]
       | H : connect _ _ = Ret _ _ |- _ => apply connect_ret in H as [? _]
       end.
  all: tidy.
  all: cbn [negb andb orb].
  all: destruct (val_eqb (context res) (PStr "postmaster")) eqn:Hp;
       cbn [andb] in *; try discriminate;
       try (specialize (Hpm eq_refl); discriminate).
  all: try match goal with
       | H2 : w_log ?w3 = EvConnect :: _,
         Hg : param_get _ ?w3 = Ret ?r ?w4 |- _ =>
           exists w3, r, w4
       end.
  all: unfold closes; cbn [app].
  all: repeat match goal with H : w_log _ = _ |- _ => rewrite H end.
  all: repeat split; try assumption; try reflexivity.
Qed.

Lemma count_event_app f l1 l2 :
  count_event f (l1 ++ l2) = (count_event f l1 + count_event f l2)%nat.
Proof. unfold count_event. now rewrite filter_app, length_app. Qed.

Lemma count_statement_reads name :
  count_event (is_statement name) (reads name) = 0%nat.
Proof.
  unfold count_event, reads. cbn [filter is_statement].
  rewrite (String.eqb_refl (show_query name)), orb_true_r.
  rewrite (String.eqb_refl select_query). reflexivity.
Qed.

(** X14.  A server older than 9.4 is not touched: the run warns, closes
    the connection and ends with the fixed result for an old server,
    [changed = false]; no query is executed, whatever was asked for. *)
Theorem old_server_short_circuit (p : Params) (w : World env) (e1 : env) :
  input_passes p ->
  (p_reset p = true <-> p_value p = None) ->
  ensure_required_libs (w_env w) = None ->
  connect_to_db (get_conn_params p) (w_env w) = inr e1 ->
  server_version e1 < PG_REQ_VER ->
  main p w
  = ExitJson (old_version_kw (p_name p))
      {| w_env := e1; w_rows := [];
         w_log := EvConnClose :: EvWarn (version_msg (server_version e1))
                  :: EvConnect :: w_log w |}.
Proof.
  intros Hin Hone Hlibs Hconn Hver. unfold main, bind.
  rewrite (prologue_forward p w Hin Hone Hlibs), Hconn.
  apply Z.ltb_lt in Hver. now rewrite Hver.
Qed.

(** X15.  With [trust_input] off the input check comes first: when it
    refuses the request the run fails with its message and nothing
    else happens, also for a request with both or neither of [value]
    and [reset]. *)
Theorem input_check_rejects_first (p : Params) (w : World env) (msg : string) :
  p_trust_input p = false ->
  check_input (p_name p) (p_value p) (p_session_role p) = Some msg ->
  main p w = FailJson msg w.
Proof.
  intros Htrust Hcheck. unfold main, prologue, bind.
  now rewrite Htrust, Hcheck.
Qed.

(** X16.  A missing driver library or a refused connection ends the run
    with the collaborator's message before any query: the world is as
    it was. *)
Theorem no_connection_no_query (p : Params) (w : World env) (msg : string) :
  input_passes p ->
  (p_reset p = true <-> p_value p = None) ->
  ensure_required_libs (w_env w) = Some msg \/
  (ensure_required_libs (w_env w) = None /\
   connect_to_db (get_conn_params p) (w_env w) = inl msg) ->
  main p w = FailJson msg w.
Proof.
  intros Hin Hone [Hlibs | [Hlibs Hconn]].
  - assert (Hpre : (if negb (p_trust_input p)
                    then match check_input (p_name p) (p_value p)
                                 (p_session_role p) with
                         | Some msg => fail_json msg
                         | None => ret tt
                         end
                    else ret tt) w = Ret tt w).
    { destruct Hin as [-> | ->]; [reflexivity|].
      now destruct (negb (p_trust_input p)). }
    pose proof (canonicalize_shorthand_none (p_value p)) as Hn.
    unfold main, prologue, bind. rewrite Hpre.
    destruct (canonicalize_shorthand (p_value p)) eqn:Hc,
             (p_reset p) eqn:Hr; cbn [andb negb].
    + exfalso. assert (p_value p = None) by now apply Hone.
      apply Hn in H. congruence.
    + unfold ret at 1 2. now rewrite Hlibs.
    + unfold ret at 1 2. now rewrite Hlibs.
    + exfalso. assert (p_value p = None) by now apply Hn.
      apply Hone in H. congruence.
  - unfold main, bind.
    now rewrite (prologue_forward p w Hin Hone Hlibs), Hconn.
Qed.

(** X17.  Every result of a run that has read the parameter names the
    parameter, its context, and as previous value the display value
    read before anything was changed. *)
Theorem result_names_previous_state (p : Params) (w w1 w2 w' : World env)
    (r : conn_params * option string) (res : Info) (kw : Kw) :
  prologue p w = Ret r w1 ->
  param_get (p_name p) w1 = Ret res w2 ->
  main p w = ExitJson kw w' ->
  kw_name kw = Some (p_name p) /\
  kw_prev_val_pretty kw = Some (current_val res) /\
  kw_context kw = Some (context res).
Proof.
  intros Hpro Hget H. destruct (p_check_mode p) eqn:Hmode.
  - destruct (check_mode_result p w w1 w2 w' r res kw Hpro Hget Hmode H)
      as (a & b & _ & _ & -> & _).
    unfold check_mode_kw. now destruct (eqb a b).
  - pose proof (execute_mode_result p w w1 w2 w' r res kw Hpro Hget Hmode H)
      as R. cbv zeta in R. unfold kw_after_apply in R.
    destruct (reset_noop p res); [destruct R as [-> _]; now repeat split|].
    destruct (in_recheck_contexts (context res)).
    + destruct R as (w3 & res' & w4 & _ & _ & _ & ->).
      now destruct (sets p res).
    + destruct R as [-> _]. now destruct (sets p res).
Qed.

(** X18.  In check mode the result reports the state before the
    change: [value] is the raw value and unit read, [value_pretty] is
    the desired value when a change is predicted and the display value
    otherwise, and nothing is done after the parameter is read. *)
Theorem check_mode_reports_prior_value (p : Params) (w w1 w2 w' : World env)
    (r : conn_params * option string) (res : Info) (kw : Kw) :
  prologue p w = Ret r w1 ->
  param_get (p_name p) w1 = Ret res w2 ->
  p_check_mode p = true ->
  main p w = ExitJson kw w' ->
  w' = w2 /\
  kw_value kw = Some (raw_val res, unit_ res) /\
  (exists changed, kw_changed kw = Some changed /\
     kw_value_pretty kw
     = Some (if changed then desired_of p else current_val res)).
Proof.
  intros Hpro Hget Hmode H.
  destruct (check_mode_result p w w1 w2 w' r res kw Hpro Hget Hmode H)
    as (a & b & _ & _ & -> & ->).
  unfold check_mode_kw. split; [reflexivity|].
  destruct (eqb a b); (split; [reflexivity|]);
    [exists false | exists true]; split; reflexivity.
Qed.

(** X19.  Outside check mode, a desired value that is the display value
    letter for letter leads to no statement at all: the run only
    connects, reads and closes, and for a context that is not read
    again the result has [changed = false]. *)
Theorem same_literal_issues_nothing (p : Params) (w w1 w2 w' : World env)
    (r : conn_params * option string) (res : Info) (kw : Kw) :
  prologue p w = Ret r w1 ->
  param_get (p_name p) w1 = Ret res w2 ->
  p_check_mode p = false ->
  p_reset p = false ->
  desired_of p = current_val res ->
  main p w = ExitJson kw w' ->
  count_event (is_statement (p_name p)) (w_log w')
  = count_event (is_statement (p_name p)) (w_log w) /\
  (in_recheck_contexts (context res) = false -> kw_changed kw = Some false).
Proof.
  intros Hpro Hget Hmode Hreset Hsame H.
  pose proof (execute_mode_result p w w1 w2 w' r res kw Hpro Hget Hmode H)
    as R. cbv zeta in R.
  assert (Hsets : sets p res = false).
  { unfold sets. rewrite Hsame.
    replace (val_eqb (current_val res) (current_val res)) with true
      by (symmetry; now apply val_eqb_eq).
    apply andb_false_r. }
  unfold reset_noop, applied, restart_warning, kw_after_apply in R.
  rewrite Hsets, Hreset in R. cbn [negb andb orb] in R.
  rewrite andb_false_r in R.
  assert (Hlog2 : count_event (is_statement (p_name p)) (w_log w2)
                  = count_event (is_statement (p_name p)) (w_log w)).
  { rewrite (param_get_log _ _ _ _ Hget).
    apply prologue_ret in Hpro as (_ & -> & _).
    rewrite count_event_app, count_statement_reads. reflexivity. }
  destruct (in_recheck_contexts (context res)).
  - destruct R as (w3 & res' & w4 & Hget' & Hlog3 & Hlog' & _).
    split; [|discriminate].
    rewrite Hlog', (param_get_log _ _ _ _ Hget'), Hlog3.
    rewrite !count_event_app, count_statement_reads.
    cbn [app]. exact Hlog2.
  - destruct R as [-> Hlog]. split; [|reflexivity].
    rewrite Hlog. cbn [app]. exact Hlog2.
Qed.

(** X20.  The order of a run for one of the contexts read again: connect
    and read; the statements of the apply step, if any; close; connect
    and read again; close.  Both connections are closed. *)
Theorem verified_run_order (p : Params) (w w1 w2 w' : World env)
    (r : conn_params * option string) (res : Info) (kw : Kw) :
  prologue p w = Ret r w1 ->
  param_get (p_name p) w1 = Ret res w2 ->
  p_check_mode p = false ->
  reset_noop p res = false ->
  in_recheck_contexts (context res) = true ->
  main p w = ExitJson kw w' ->
  w_log w'
  = closes ++ reads (p_name p) ++ [EvConnect]
    ++ closes ++ applied p res ++ reads (p_name p) ++ [EvConnect] ++ w_log w
  /\ count_event is_connect (w_log w')
     = (2 + count_event is_connect (w_log w))%nat
  /\ count_event is_conn_close (w_log w')
     = (2 + count_event is_conn_close (w_log w))%nat.
Proof.
  intros Hpro Hget Hmode Hnoop Hre H.
  pose proof (execute_mode_run p w w1 w2 w' r res kw Hpro Hget Hmode H) as R.
  rewrite Hnoop, Hre in R.
  destruct R as (_ & w3 & res' & w4 & Hget' & Hlog3 & Hlog' & _).
  assert (Hlog : w_log w'
    = closes ++ reads (p_name p) ++ [EvConnect]
      ++ closes ++ applied p res ++ reads (p_name p) ++ [EvConnect] ++ w_log w).
  { rewrite Hlog', (param_get_log _ _ _ _ Hget'), Hlog3.
    rewrite (param_get_log _ _ _ _ Hget).
    apply prologue_ret in Hpro as (_ & -> & _). reflexivity. }
  split; [exact Hlog|]. rewrite Hlog.
  assert (Happ : forall f, (forall q a, f (EvExecute q a) = false) ->
                           count_event f (applied p res) = 0%nat).
  { intros f Hf. unfold applied, writes.
    repeat match goal with
           | |- context [if ?b then _ else _] => destruct b
           end; unfold count_event; cbn [app filter]; rewrite ?Hf; reflexivity. }
  split; rewrite !count_event_app, Happ by reflexivity; reflexivity.
Qed.

(** X21.  A reset that has something to change executes
    [ALTER SYSTEM SET] with the boot value as [param_get] returned it -
    for a parameter in [kB] or [MB] the number already multiplied by
    1024 or 1024 * 1024 - and then, unless the context is [postmaster],
    the reload. *)
Theorem reset_writes_boot_val (p : Params) (w w1 w2 w' : World env)
    (r : conn_params * option string) (res : Info) (kw : Kw) :
  prologue p w = Ret r w1 ->
  param_get (p_name p) w1 = Ret res w2 ->
  p_check_mode p = false ->
  p_reset p = true ->
  raw_val res <> boot_val res ->
  main p w = ExitJson kw w' ->
  applied p res = writes (p_name p) (boot_val res) (context res) /\
  In (EvExecute (alter_query (p_name p) (boot_val res)) None) (w_log w') /\
  (context res <> PStr "postmaster" ->
   In (EvExecute reload_query None) (w_log w')).
Proof.
  intros Hpro Hget Hmode Hreset Hne H.
  pose proof (execute_mode_run p w w1 w2 w' r res kw Hpro Hget Hmode H) as R.
  pose proof (prologue_ret _ _ _ _ Hpro) as (_ & _ & _ & Hnone).
  assert (Hsets : sets p res = false).
  { unfold sets, desired_of. rewrite (proj1 Hnone Hreset). reflexivity. }
  assert (Happ : applied p res
                 = writes (p_name p) (boot_val res) (context res)).
  { unfold applied. now rewrite Hsets, Hreset. }
  assert (Hnoop : reset_noop p res = false).
  { unfold reset_noop. rewrite Hsets, Hreset. cbn [negb andb].
    now apply val_eqb_neq. }
  rewrite Hnoop, Happ in R. destruct R as [_ R].
  assert (Hin : forall ev, In ev (writes (p_name p) (boot_val res) (context res))
                           -> In ev (w_log w')).
  { intros ev Hev. destruct (in_recheck_contexts (context res)).
    - destruct R as (w3 & res' & w4 & Hget' & Hlog3 & Hlog' & _).
      rewrite Hlog', (param_get_log _ _ _ _ Hget'), Hlog3.
      apply in_or_app; right. apply in_or_app; right. right.
      apply in_or_app; right. apply in_or_app; now left.
    - destruct R as [_ Hlog]. rewrite Hlog.
      apply in_or_app; right. apply in_or_app; right.
      apply in_or_app; now left. }
  split; [exact Happ|]. split; [apply Hin, In_writes|].
  intros Hpm. apply Hin. unfold writes.
  apply val_eqb_neq in Hpm. rewrite Hpm. left. reflexivity.
Qed.

(** X22.  For a context that is not read again ([postmaster], or one
    the module does not know) a run outside check mode reports
    [changed = true] exactly when the apply step had something to
    execute; the result has no [value], its [value_pretty] is the
    desired value if one was applied and the display value otherwise,
    and the restart warning is given for [postmaster] when [changed]. *)
Theorem unverified_context_result (p : Params) (w w1 w2 w' : World env)
    (r : conn_params * option string) (res : Info) (kw : Kw) :
  prologue p w = Ret r w1 ->
  param_get (p_name p) w1 = Ret res w2 ->
  p_check_mode p = false ->
  reset_noop p res = false ->
  in_recheck_contexts (context res) = false ->
  main p w = ExitJson kw w' ->
  let changed := sets p res || p_reset p in
  let postmaster := val_eqb (context res) (PStr "postmaster") in
  kw_changed kw = Some changed /\
  kw_restart_required kw = Some postmaster /\
  kw_value kw = None /\
  kw_value_pretty kw
  = Some (if sets p res then desired_of p else current_val res) /\
  w_log w'
  = (if postmaster && changed then [EvWarn (restart_msg (p_name p))] else [])
    ++ closes ++ applied p res ++ reads (p_name p) ++ EvConnect :: w_log w.
Proof.
  intros Hpro Hget Hmode Hnoop Hre H.
  pose proof (execute_mode_result p w w1 w2 w' r res kw Hpro Hget Hmode H)
    as R. cbv zeta in R.
  rewrite Hnoop, Hre in R. destruct R as [-> Hlog].
  cbv zeta. unfold kw_after_apply.
  repeat split; try (now destruct (sets p res)).
  rewrite Hlog, (param_get_log _ _ _ _ Hget).
  apply prologue_ret in Hpro as (_ & -> & _). reflexivity.
Qed.

End Main.

(** ** The further properties on concrete runs *)

Lemma pretty_to_bytes_keeps_strings_witness :
  pretty_to_bytes (PStr "10s") = Ok (OVal (PStr "10s")) /\
  PStr "10s" = PStr "10s".
Proof.
  split; [reflexivity|].
  apply (pretty_to_bytes_keeps_strings (PStr "10s") "10s"). reflexivity.
Defined.

Lemma pretty_to_bytes_other_units_witness :
  pretty_to_bytes (PStr "10min") = Ok (OVal (PStr "10min")) /\
  pretty_to_bytes (PStr "32mb") = Ok (OVal (PStr "32mb")).
Proof.
  split.
  - apply (pretty_to_bytes_other_units "10" "min" "n");
      [reflexivity | apply Nat.leb_le; reflexivity | reflexivity
      | reflexivity | reflexivity | discriminate].
  - apply (pretty_to_bytes_other_units "32" "mb" "b");
      [reflexivity | apply Nat.leb_le; reflexivity | reflexivity
      | reflexivity | reflexivity | discriminate].
Defined.

Lemma pretty_to_bytes_integer_witness :
  pretty_to_bytes (PStr "0010") = Ok (OVal (PInt 10)).
Proof.
  apply (pretty_to_bytes_integer "0010");
    [reflexivity | apply Nat.leb_le; reflexivity].
Defined.

Lemma pretty_to_bytes_nonneg_witness :
  pretty_to_bytes (PStr "4MB") = Ok (OVal (PInt 4194304)) /\ 0 <= 4194304.
Proof.
  split; [reflexivity|].
  apply (pretty_to_bytes_nonneg "4MB" 4194304). reflexivity.
Defined.

Lemma canonicalize_shorthand_units_witness :
  canonicalize_shorthand (Some "32mb") = Some "32MB" /\
  canonicalize_shorthand (Some "1b") = Some "1B".
Proof.
  split.
  - apply (canonicalize_shorthand_units "32" "mb"); reflexivity.
  - apply (canonicalize_shorthand_units "1" "b"); reflexivity.
Defined.


Lemma shorthand_then_bytes_witness :
  pretty_to_bytes (desired (canonicalize_shorthand (Some "32mb")))
  = Ok (OVal (PInt (32 * 1024 ^ 2))) /\
  pretty_to_bytes (PStr "32mb") = Ok (OVal (PStr "32mb")).
Proof.
  destruct (shorthand_then_bytes "32" eq_refl) as (_ & Hmb & _ & _ & Hraw).
  - apply Nat.leb_le. reflexivity.
  - split; [exact Hmb | exact Hraw].
Defined.

Lemma param_get_unknown_parameter_witness :
  exists w',
    param_get (E := Mock.guarded) "session_authorization"
      (Mock.start Mock.work_mem)
    = FailJson (no_such_msg "session_authorization") w'.
Proof.
  eexists.
  eapply (param_get_unknown_parameter (E := Mock.guarded)
            "session_authorization" (Mock.start Mock.work_mem));
    [vm_compute; reflexivity | left; reflexivity | vm_compute; reflexivity].
Defined.

Lemma param_get_driver_error_witness :
  exists w',
    param_get (E := Mock.engine) "no_such" (Mock.start Mock.work_mem)
    = FailJson "Unable to get no_such value due to : syntax error" w' /\
    w_log w' = reads "no_such".
Proof.
  edestruct (param_get_driver_error (E := Mock.engine) "no_such"
               "syntax error" (Mock.start Mock.work_mem))
    as (w' & Hfail & _ & Hlog).
  - right. do 2 eexists. split; vm_compute; reflexivity.
  - exists w'. split; [exact Hfail|]. apply Hlog. vm_compute. discriminate.
Defined.

Lemma param_get_other_units_witness :
  exists res w',
    param_get (E := Mock.engine) "shared_buffers"
      (Mock.start Mock.shared_buffers) = Ret res w' /\
    unit_ res = PStr "8kB" /\ raw_val res = PStr "16384".
Proof.
  do 2 eexists. split; [vm_compute; reflexivity|].
  edestruct (param_get_other_units (E := Mock.engine) "shared_buffers"
               (Mock.start Mock.shared_buffers))
    as (e1 & row & rows & u & vs & vb & Hex & Hu & Hs & Hb & Hother);
    [vm_compute; reflexivity|].
  vm_compute in Hex. injection Hex as _ <- _.
  vm_compute in Hu, Hs. injection Hu as <-. injection Hs as <-.
  destruct Hother as (Hunit & Hraw & _); [discriminate | discriminate|].
  split; [exact Hunit | exact Hraw].
Defined.

Lemma param_get_display_value_witness :
  exists res w',
    param_get (E := Mock.engine) "wal_log_hints"
      (Mock.start Mock.wal_log_hints) = Ret res w' /\
    current_val res = PStr "off".
Proof.
  do 2 eexists. split; [vm_compute; reflexivity|].
  edestruct (param_get_display_value (E := Mock.engine) "wal_log_hints"
               (Mock.start Mock.wal_log_hints))
    as (_ & _ & e1 & rows1 & e2 & vrow & rows2 & v & H1 & H2 & Hv & _ & Hoff & _);
    [vm_compute; reflexivity|].
  vm_compute in H1. injection H1 as <- _.
  vm_compute in H2. injection H2 as _ <- _.
  vm_compute in Hv. injection Hv as <-.
  apply Hoff. reflexivity.
Defined.

Lemma old_server_short_circuit_witness :
  main (E := Mock.engine) (Mock.request "work_mem" (Some "32MB") false false)
       (Mock.start Mock.old_server)
  = ExitJson (old_version_kw "work_mem")
      {| w_env := Mock.old_server; w_rows := [];
         w_log := [EvConnClose;
                   EvWarn "PostgreSQL is 90300 version but 90400 or later is required";
                   EvConnect] |}.
Proof.
  apply (old_server_short_circuit (E := Mock.engine)
           (Mock.request "work_mem" (Some "32MB") false false)
           (Mock.start Mock.old_server) Mock.old_server).
  - left. reflexivity.
  - split; discriminate.
  - reflexivity.
  - reflexivity.
  - reflexivity.
Defined.

Lemma input_check_rejects_first_witness :
  main (E := Mock.guarded)
       {| p_name := "work_mem"; p_value := Some "1; DROP TABLE t";
          p_reset := true; p_session_role := None;
          p_trust_input := false; p_check_mode := false |}
       (Mock.start Mock.work_mem)
  = FailJson "Passed input is potentially dangerous" (Mock.start Mock.work_mem).
Proof.
  apply (input_check_rejects_first (E := Mock.guarded)); reflexivity.
Defined.

Lemma no_connection_no_query_witness :
  main (E := Mock.guarded) (Mock.request "work_mem" (Some "32MB") false false)
       (Mock.start Mock.down)
  = FailJson "unable to connect to database" (Mock.start Mock.down).
Proof.
  apply (no_connection_no_query (E := Mock.guarded)
           (Mock.request "work_mem" (Some "32MB") false false)
           (Mock.start Mock.down)).
  - left. reflexivity.
  - split; discriminate.
  - right. split; reflexivity.
Defined.

Lemma result_names_previous_state_witness :
  exists kw w',
    main (E := Mock.engine) (Mock.request "work_mem" (Some "32mb") false false)
         (Mock.start Mock.work_mem) = ExitJson kw w' /\
    kw_name kw = Some "work_mem" /\
    kw_prev_val_pretty kw = Some (PStr "4MB") /\
    kw_context kw = Some (PStr "user").
Proof.
  do 2 eexists. split; [vm_compute; reflexivity|].
  edestruct (result_names_previous_state (E := Mock.engine)
               (Mock.request "work_mem" (Some "32mb") false false)
               (Mock.start Mock.work_mem))
    as (Hname & Hprev & Hctx);
    [vm_compute; reflexivity | vm_compute; reflexivity
    | vm_compute; reflexivity | ].
  split; [exact Hname | split; [exact Hprev | exact Hctx]].
Defined.

Lemma check_mode_reports_prior_value_witness :
  exists kw w',
    main (E := Mock.engine) (Mock.request "work_mem" (Some "32mb") false true)
         (Mock.start Mock.work_mem) = ExitJson kw w' /\
    w_log w' = reads "work_mem" ++ [EvConnect] /\
    kw_value kw = Some (PInt (4096 * 1024), PStr "b") /\
    kw_changed kw = Some true /\
    kw_value_pretty kw = Some (PStr "32MB").
Proof.
  do 2 eexists. split; [vm_compute; reflexivity|].
  edestruct (check_mode_reports_prior_value (E := Mock.engine)
               (Mock.request "work_mem" (Some "32mb") false true)
               (Mock.start Mock.work_mem))
    as (Hw & Hval & changed & Hch & Hpretty);
    [vm_compute; reflexivity | vm_compute; reflexivity | reflexivity
    | vm_compute; reflexivity | ].
  split; [reflexivity|]. split; [exact Hval|].
  injection Hch as <-. split; [reflexivity | exact Hpretty].
Defined.

Lemma same_literal_issues_nothing_witness :
  exists kw w',
    main (E := Mock.engine) (Mock.request "work_mem" (Some "4MB") false false)
         (Mock.start Mock.work_mem) = ExitJson kw w' /\
    count_event (is_statement "work_mem") (w_log w') = 0%nat.
Proof.
  do 2 eexists. split; [vm_compute; reflexivity|].
  edestruct (same_literal_issues_nothing (E := Mock.engine)
               (Mock.request "work_mem" (Some "4MB") false false)
               (Mock.start Mock.work_mem))
    as (Hcount & _);
    [vm_compute; reflexivity | vm_compute; reflexivity | reflexivity
    | reflexivity | vm_compute; reflexivity | vm_compute; reflexivity | ].
  exact Hcount.
Defined.

Lemma verified_run_order_witness :
  exists kw w',
    main (E := Mock.engine) (Mock.request "work_mem" (Some "32mb") false false)
         (Mock.start Mock.work_mem) = ExitJson kw w' /\
    w_log w'
    = [EvConnClose; EvCursorClose;
       EvExecute "SHOW work_mem" None;
       EvExecute select_query (Some "work_mem");
       EvConnect;
       EvConnClose; EvCursorClose;
       EvExecute "SELECT pg_reload_conf()" None;
       EvExecute "ALTER SYSTEM SET work_mem = '32MB'" None;
       EvExecute "SHOW work_mem" None;
       EvExecute select_query (Some "work_mem");
       EvConnect] /\
    count_event is_connect (w_log w') = 2%nat /\
    count_event is_conn_close (w_log w') = 2%nat.
Proof.
  do 2 eexists. split; [vm_compute; reflexivity|].
  edestruct (verified_run_order (E := Mock.engine)
               (Mock.request "work_mem" (Some "32mb") false false)
               (Mock.start Mock.work_mem))
    as (Hlog & Hconn & Hclose);
    [vm_compute; reflexivity | vm_compute; reflexivity | reflexivity
    | vm_compute; reflexivity | vm_compute; reflexivity
    | vm_compute; reflexivity | ].
  split; [exact Hlog | split; [exact Hconn | exact Hclose]].
Defined.

Lemma reset_writes_boot_val_witness :
  exists kw w',
    main (E := Mock.engine) (Mock.request "work_mem" None true false)
         (Mock.start Mock.work_mem_32MB) = ExitJson kw w' /\
    In (EvExecute "ALTER SYSTEM SET work_mem = '4194304'" None) (w_log w') /\
    In (EvExecute "SELECT pg_reload_conf()" None) (w_log w').
Proof.
  do 2 eexists. split; [vm_compute; reflexivity|].
  edestruct (reset_writes_boot_val (E := Mock.engine)
               (Mock.request "work_mem" None true false)
               (Mock.start Mock.work_mem_32MB))
    as (_ & Halter & Hreload);
    [vm_compute; reflexivity | vm_compute; reflexivity | reflexivity
    | reflexivity | | vm_compute; reflexivity | ].
  - discriminate.
  - split; [exact Halter | apply Hreload; discriminate].
Defined.

Lemma unverified_context_result_witness :
  exists kw w',
    main (E := Mock.engine)
         (Mock.request "shared_buffers" (Some "256MB") false false)
         (Mock.start Mock.shared_buffers) = ExitJson kw w' /\
    kw_changed kw = Some true /\
    kw_restart_required kw = Some true /\
    kw_value kw = None /\
    kw_value_pretty kw = Some (PStr "256MB") /\
    w_log w'
    = [EvWarn "Restart of PostgreSQL is required for setting shared_buffers";
       EvConnClose; EvCursorClose;
       EvExecute "ALTER SYSTEM SET shared_buffers = '256MB'" None;
       EvExecute "SHOW shared_buffers" None;
       EvExecute select_query (Some "shared_buffers");
       EvConnect].
Proof.
  do 2 eexists. split; [vm_compute; reflexivity|].
  edestruct (unverified_context_result (E := Mock.engine)
               (Mock.request "shared_buffers" (Some "256MB") false false)
               (Mock.start Mock.shared_buffers))
    as (Hch & Hrr & Hval & Hpretty & Hlog);
    [vm_compute; reflexivity | vm_compute; reflexivity | reflexivity
    | vm_compute; reflexivity | vm_compute; reflexivity
    | vm_compute; reflexivity | ].
  split; [exact Hch|]. split; [exact Hrr|]. split; [exact Hval|].
  split; [exact Hpretty | exact Hlog].
Defined.

Lemma reset_noop_stops_witness :
  exists kw w',
    main (E := Mock.engine) (Mock.request "work_mem" None true false)
         (Mock.start Mock.work_mem) = ExitJson kw w' /\
    w_log w' = reads "work_mem" ++ [EvConnect] /\
    kw_changed kw = None /\
    kw_value kw = Some (PInt (4096 * 1024), PStr "b").
Proof.
  do 2 eexists. split; [vm_compute; reflexivity|].
  edestruct (reset_noop_stops (E := Mock.engine)
               (Mock.request "work_mem" None true false)
               (Mock.start Mock.work_mem))
    as (Hw & Hch & _ & Hval);
    [vm_compute; reflexivity | vm_compute; reflexivity | reflexivity
    | vm_compute; reflexivity | vm_compute; reflexivity | ].
  split; [reflexivity | split; [exact Hch | exact Hval]].
Defined.

Lemma postmaster_restart_required_witness :
  exists kw w',
    main (E := Mock.engine)
         (Mock.request "shared_buffers" (Some "256MB") false false)
         (Mock.start Mock.shared_buffers) = ExitJson kw w' /\
    kw_restart_required kw = Some true /\
    ~ In (EvExecute reload_query None) (w_log w').
Proof.
  do 2 eexists. split; [vm_compute; reflexivity|].
  edestruct (postmaster_restart_required (E := Mock.engine)
               (Mock.request "shared_buffers" (Some "256MB") false false)
               (Mock.start Mock.shared_buffers))
    as (Hrr & Hreload);
    [vm_compute; reflexivity | vm_compute; reflexivity | reflexivity
    | vm_compute; reflexivity | ].
  split; [exact Hrr|]. intros Hin. exact (Hreload Hin).
Defined.

